(** * fabric_nodes.launch.py: configuration validation and node expansion

    A shallow embedding of [validate_config], [load_config] and the
    [Config2Nodes] converter of [fabric_nodes/launch/fabric_nodes.launch.py],
    followed by the properties of the validator and of the expansion.

    Conventions of the embedding.
    - The parsed YAML document is a tree of Python dicts.  A key that the
      source reads with [d.get(k, default)] or tests with [k in d] is an
      [option] field ([None]: the key is absent); a key that the source only
      ever indexes ([d['name']], [d['node']], [d['nodes']],
      [d['environments']]) is a plain field.
    - Quantities are Python integers ([Z]); characterization values are
      carried through unchanged and are integers here as well.
    - Output dicts are insertion-ordered association lists with Python's
      assignment semantics ([Dict.set]).
    - Raising is a value of [Exception] on the left of a sum; the converter,
      which appends to [self.nodes], lives in a state-and-exception monad. *)

From Stdlib Require Import String Ascii ZArith List Bool Lia DecimalString.
From Stdlib Require DecimalZ.
Import ListNotations.

Local Open Scope string_scope.
Local Open Scope Z_scope.

(** ** The parsed document *)

Record Publisher := mkPublisher {
  pub_name : string;
  pub_qty : option Z;
  pub_bandwidth : option Z;
  pub_msg_size : option Z;
  pub_msg_frequency : option Z
}.

Record Subscriber := mkSubscriber {
  sub_name : string;
  sub_node : string;
  sub_qty : option Z
}.

Record NodeConfig := mkNodeConfig {
  nc_name : string;
  nc_root_node : option bool;
  nc_terminal_node : option bool;
  nc_qty : option Z;
  nc_publishers : option (list Publisher);
  nc_subscribers : option (list Subscriber)
}.

Record Environment := mkEnvironment {
  env_name : string;
  env_nodes : list NodeConfig
}.

Record Config := mkConfig {
  environments : list Environment
}.

(** ** Python primitives *)

(** [d.get(k, default)] on an optional key. *)
Definition get {A : Type} (field : option A) (default : A) : A :=
  match field with
  | Some v => v
  | None => default
  end.

(** [k in d] on an optional key. *)
Definition contains {A : Type} (field : option A) : bool :=
  match field with
  | Some _ => true
  | None => false
  end.

(** [str(num)] for an integer. *)
Definition str (num : Z) : string := NilZero.string_of_int (Z.to_int num).

(** [range(start, stop)]. *)
Definition range (start stop : Z) : list Z :=
  map (fun i => start + Z.of_nat i) (seq 0 (Z.to_nat (stop - start))).

(** Insertion-ordered dicts with string keys. *)
Module Dict.

Definition dict (V : Type) : Type := list (string * V).

Definition empty {V : Type} : dict V := [].

(** [d[k] = v]: an existing key keeps its position and takes the new value,
    a new key goes to the end. *)
Fixpoint set {V : Type} (k : string) (v : V) (d : dict V) : dict V :=
  match d with
  | [] => [(k, v)]
  | (k', v') :: d' =>
      if String.eqb k' k then (k', v) :: d' else (k', v') :: set k v d'
  end.

(** [d.get(k)]. *)
Fixpoint lookup {V : Type} (k : string) (d : dict V) : option V :=
  match d with
  | [] => None
  | (k', v') :: d' => if String.eqb k' k then Some v' else lookup k d'
  end.

Definition keys {V : Type} (d : dict V) : list string := map fst d.

End Dict.

(** ** Exceptions *)

Inductive Exception :=
  | ValueError (message : string)
  | KeyError (key : string).

Definition Exc (A : Type) : Type := (Exception + A)%type.

Definition ok {A : Type} (a : A) : Exc A := inr a.
Definition raise {A : Type} (e : Exception) : Exc A := inl e.

Definition bindE {A B : Type} (m : Exc A) (k : A -> Exc B) : Exc B :=
  match m with
  | inl e => inl e
  | inr a => k a
  end.

Declare Scope exc_scope.
Delimit Scope exc_scope with exc.
Notation "m ;;; k" := (bindE m (fun _ => k))
  (at level 61, right associativity) : exc_scope.

(** A [for] loop whose body may raise. *)
Fixpoint for_each {A : Type} (body : A -> Exc unit) (l : list A) : Exc unit :=
  match l with
  | [] => ok tt
  | x :: l' => bindE (body x) (fun _ => for_each body l')
  end.

(** ** validate_config *)

Module Msg.

Definition node_qty (node : string) : string :=
  "Invalid node quantity for node '" ++ node ++ "'".

Definition publisher_qty (publisher node : string) : string :=
  "Invalid publisher quantity for publisher '" ++ publisher
    ++ "' in node '" ++ node ++ "'".

Definition publisher_parameters (publisher node : string) : string :=
  "Publisher '" ++ publisher ++ "' in node '" ++ node
    ++ "' must have at least two of the following parameters: bandwidth, msg_size, msg_frequency".

Definition subscriber_qty (subscriber node : string) : string :=
  "Invalid subscriber quantity for subscriber '" ++ subscriber
    ++ "' in node '" ++ node ++ "'".

Definition both_roles (node : string) : string :=
  "Node '" ++ node ++ "' cannot be both a terminal node and a root node".

Definition root_subscribers (node : string) : string :=
  "Root node '" ++ node ++ "' cannot have subscribers".

Definition terminal_publishers (node : string) : string :=
  "Terminal node '" ++ node ++ "' cannot have publishers".

End Msg.

(** [sum(parameter in publisher for parameter in
         ['bandwidth', 'msg_size', 'msg_frequency'])] *)
Definition parameter_count (publisher : Publisher) : Z :=
  Z.b2z (contains (pub_bandwidth publisher))
  + Z.b2z (contains (pub_msg_size publisher))
  + Z.b2z (contains (pub_msg_frequency publisher)).

(** Body of [for publisher in node_publishers]. *)
Definition validate_publisher (node_config : NodeConfig) (publisher : Publisher)
  : Exc unit :=
  let publisher_qty := get (pub_qty publisher) 1 in
  if publisher_qty <? 1 then
    raise (ValueError (Msg.publisher_qty (pub_name publisher) (nc_name node_config)))
  else if parameter_count publisher <? 2 then
    raise (ValueError (Msg.publisher_parameters (pub_name publisher) (nc_name node_config)))
  else ok tt.

(** Body of [for subscriber in node_subscribers]. *)
Definition validate_subscriber (node_config : NodeConfig) (subscriber : Subscriber)
  : Exc unit :=
  let subscriber_qty := get (sub_qty subscriber) 1 in
  if subscriber_qty <? 1 then
    raise (ValueError (Msg.subscriber_qty (sub_name subscriber) (nc_name node_config)))
  else ok tt.

(** The root/terminal rules that close the body of the node loop. *)
Definition validate_roles (node_config : NodeConfig) : Exc unit :=
  let root_node := get (nc_root_node node_config) false in
  let terminal_node := get (nc_terminal_node node_config) false in
  if root_node && terminal_node then
    raise (ValueError (Msg.both_roles (nc_name node_config)))
  else if root_node && contains (nc_subscribers node_config) then
    raise (ValueError (Msg.root_subscribers (nc_name node_config)))
  else if terminal_node && contains (nc_publishers node_config) then
    raise (ValueError (Msg.terminal_publishers (nc_name node_config)))
  else ok tt.

(** Body of [for node_config in environment['nodes']]. *)
Definition validate_node (node_config : NodeConfig) : Exc unit :=
  let node_qty := get (nc_qty node_config) 1 in
  if node_qty <? 1 then
    raise (ValueError (Msg.node_qty (nc_name node_config)))
  else
    let node_publishers := get (nc_publishers node_config) [] in
    let node_subscribers := get (nc_subscribers node_config) [] in
    (for_each (validate_publisher node_config) node_publishers ;;;
     for_each (validate_subscriber node_config) node_subscribers ;;;
     validate_roles node_config)%exc.

Definition validate_config (config : Config) : Exc unit :=
  for_each (fun environment => for_each validate_node (env_nodes environment))
           (environments config).

(** [load_config]: [document] is what [yaml.safe_load] returned for the file. *)
Definition load_config (document : Config) : Exc Config :=
  bindE (validate_config document) (fun _ => ok document).

(** ** Config2Nodes *)

(** The dict handed to [Node(parameters=[...])]. *)
Record Parameters := mkParameters {
  root_node : bool;
  terminal_node : bool;
  publish_topics : Dict.dict (Dict.dict Z);
  subscribe_topics : Dict.dict (Dict.dict string)
}.

(** The keyword arguments a [launch_ros.actions.Node] is built from. *)
Record Node := mkNode {
  package : string;
  executable : string;
  name : string;
  namespace : string;
  parameters : list Parameters;
  output : string
}.

(** The converter object: [self.nodes] and [self.config]. *)
Record Config2Nodes := mkConfig2Nodes {
  nodes : list Node;
  config : Config
}.

(** [Config2Nodes.__init__] *)
Definition init (config : Config) : Config2Nodes :=
  {| nodes := []; config := config |}.

(** Methods of the converter: the object goes in, the outcome and the
    object as the call left it come out.  An exception keeps whatever was
    appended to [self.nodes] before it was raised. *)
Definition Method (A : Type) : Type := Config2Nodes -> Exc A * Config2Nodes.

Definition ret {A : Type} (a : A) : Method A := fun self => (inr a, self).

Definition throw {A : Type} (e : Exception) : Method A := fun self => (inl e, self).

Definition bind {A B : Type} (m : Method A) (k : A -> Method B) : Method B :=
  fun self =>
    match m self with
    | (inl e, self') => (inl e, self')
    | (inr a, self') => k a self'
    end.

Declare Scope method_scope.
Delimit Scope method_scope with method.
Notation "x <- m ;; k" := (bind m (fun x => k))
  (at level 61, m at next level, right associativity) : method_scope.
Notation "m ;; k" := (bind m (fun _ => k))
  (at level 61, right associativity) : method_scope.

(** A [for] loop inside a method. *)
Fixpoint for_ {A : Type} (l : list A) (body : A -> Method unit) : Method unit :=
  match l with
  | [] => ret tt
  | x :: l' => bind (body x) (fun _ => for_ l' body)
  end.

(** [d[key]] on an optional key. *)
Definition index {A : Type} (field : option A) (key : string) : Method A :=
  match field with
  | Some v => ret v
  | None => throw (KeyError key)
  end.

(** [self.nodes.append(node)] *)
Definition append (node : Node) : Method unit :=
  fun self => (inr tt, {| nodes := nodes self ++ [node]; config := config self |}).

(** [publish_topic], as built at the head of the publisher loop. *)
Definition publish_topic_of (publisher : Publisher) : Dict.dict Z :=
  let publish_topic := Dict.empty in
  let publish_topic :=
    match pub_msg_size publisher with
    | Some v => Dict.set "msg_size" v publish_topic
    | None => publish_topic
    end in
  let publish_topic :=
    match pub_bandwidth publisher with
    | Some v => Dict.set "bandwidth" v publish_topic
    | None => publish_topic
    end in
  let publish_topic :=
    match pub_msg_frequency publisher with
    | Some v => Dict.set "msg_frequency" v publish_topic
    | None => publish_topic
    end in
  publish_topic.

(** The replication that ends both topic loops:
    [if qty != 1: for num in range(1, qty + 1): topics[topic_name + '_' + str(num)] = topic
     else: topics[topic_name] = topic] *)
Definition replicate_topic {V : Type} (topic_name : string) (qty : Z) (topic : V)
    (topics : Dict.dict V) : Dict.dict V :=
  if negb (qty =? 1) then
    fold_left (fun topics num => Dict.set (topic_name ++ "_" ++ str num) topic topics)
              (range 1 (qty + 1)) topics
  else Dict.set topic_name topic topics.

(** Body of [for publisher in node_config['publishers']]. *)
Definition process_publisher (publish_topics : Dict.dict (Dict.dict Z))
    (publisher : Publisher) : Dict.dict (Dict.dict Z) :=
  let topic_name := pub_name publisher in
  let publish_topic := publish_topic_of publisher in
  let publisher_qty := get (pub_qty publisher) 1 in
  replicate_topic topic_name publisher_qty publish_topic publish_topics.

Definition process_publishers (node_config : NodeConfig) : Dict.dict (Dict.dict Z) :=
  match nc_publishers node_config with
  | Some publishers => fold_left process_publisher publishers Dict.empty
  | None => Dict.empty
  end.

(** Body of [for subscriber in node_config['subscribers']]. *)
Definition process_subscriber (subscribe_topics : Dict.dict (Dict.dict string))
    (subscriber : Subscriber) : Dict.dict (Dict.dict string) :=
  let topic_name := sub_name subscriber in
  let subscribe_topic := Dict.set "node" (sub_node subscriber) Dict.empty in
  let subscriber_qty := get (sub_qty subscriber) 1 in
  replicate_topic topic_name subscriber_qty subscribe_topic subscribe_topics.

Definition process_subscribers (node_config : NodeConfig) : Dict.dict (Dict.dict string) :=
  match nc_subscribers node_config with
  | Some subscribers => fold_left process_subscriber subscribers Dict.empty
  | None => Dict.empty
  end.

Definition create_node (name : string) (root_node terminal_node : bool)
    (publish_topics : Dict.dict (Dict.dict Z))
    (subscribe_topics : Dict.dict (Dict.dict string)) : Node :=
  {| package := "fabric_nodes";
     executable := "dummy_node_exe";
     name := name;
     namespace := name;
     parameters := [ {| root_node := root_node;
                        terminal_node := terminal_node;
                        publish_topics := publish_topics;
                        subscribe_topics := subscribe_topics |} ];
     output := "screen" |}.

Definition generate_node (node_config : NodeConfig) (node_name : string)
    (root_node terminal_node : bool)
    (publish_topics : Dict.dict (Dict.dict Z))
    (subscribe_topics : Dict.dict (Dict.dict string)) : Method unit :=
  match nc_qty node_config with
  | Some node_qty =>
      for_ (range 1 (node_qty + 1)) (fun num =>
        let node := create_node (node_name ++ "_" ++ str num) root_node terminal_node
                                publish_topics subscribe_topics in
        append node)
  | None =>
      let node := create_node node_name root_node terminal_node
                              publish_topics subscribe_topics in
      append node
  end.

(** Body of [for node_config in environment['nodes']] in [get_nodes]. *)
Definition get_nodes_node (node_config : NodeConfig) : Method unit :=
  (let node_name := nc_name node_config in
   root_node <- index (nc_root_node node_config) "root_node" ;;
   terminal_node <- index (nc_terminal_node node_config) "terminal_node" ;;
   let publish_topics := process_publishers node_config in
   let subscribe_topics := process_subscribers node_config in
   generate_node node_config node_name root_node terminal_node
                 publish_topics subscribe_topics)%method.

(** Body of [for environment in self.config['environments']]. *)
Definition get_nodes_environment (environment : Environment) : Method unit :=
  if negb (String.eqb (env_name environment) "env1") then ret tt
  else for_ (env_nodes environment) get_nodes_node.

(** Reading the attributes [self.config] and [self.nodes]. *)
Definition self_config : Method Config := fun self => (inr (config self), self).
Definition self_nodes : Method (list Node) := fun self => (inr (nodes self), self).

(** The value returned is [self.nodes] itself, as it stands at the return. *)
Definition get_nodes : Method (list Node) :=
  (config <- self_config ;;
   for_ (environments config) get_nodes_environment ;;
   self_nodes)%method.

(** [generate_launch_description], from the parsed document on: the list is
    what [LaunchDescription] receives. *)
Definition generate_launch_description (document : Config) : Exc (list Node) :=
  bindE (load_config document) (fun config =>
    let converter := init config in
    fst (get_nodes converter)).

(** ** Derived descriptions used in the statements *)

(** The keys one topic spec writes, in the order it writes them. *)
Definition replica_names (topic_name : string) (qty : Z) : list string :=
  if negb (qty =? 1) then map (fun num => topic_name ++ "_" ++ str num) (range 1 (qty + 1))
  else [topic_name].

(** Every assignment the publisher loop performs, in program order. *)
Definition publisher_entries (node_config : NodeConfig) : list (string * Dict.dict Z) :=
  flat_map (fun publisher =>
              map (fun k => (k, publish_topic_of publisher))
                  (replica_names (pub_name publisher) (get (pub_qty publisher) 1)))
           (get (nc_publishers node_config) []).

(** Every assignment the subscriber loop performs, in program order. *)
Definition subscriber_entries (node_config : NodeConfig)
  : list (string * Dict.dict string) :=
  flat_map (fun subscriber =>
              map (fun k => (k, Dict.set "node" (sub_node subscriber) Dict.empty))
                  (replica_names (sub_name subscriber) (get (sub_qty subscriber) 1)))
           (get (nc_subscribers node_config) []).

(** The value of the last assignment to [k] in a sequence of assignments. *)
Definition last_binding {V : Type} (k : string) (entries : list (string * V)) : option V :=
  Dict.lookup k (rev entries).

Fixpoint has_duplicates (l : list string) : bool :=
  match l with
  | [] => false
  | x :: l' => existsb (String.eqb x) l' || has_duplicates l'
  end.

Definition total_quantity (quantities : list Z) : Z := fold_right Z.add 0 quantities.

(** The instance names [generate_node] produces for [node_name], by the
    [qty] key of the node entry. *)
Definition instance_names (node_name : string) (qty : option Z) : list string :=
  match qty with
  | Some node_qty => map (fun num => node_name ++ "_" ++ str num) (range 1 (node_qty + 1))
  | None => [node_name]
  end.

(** The descriptors one node entry contributes when both role keys are there. *)
Definition descriptors (node_config : NodeConfig) : list Node :=
  map (fun instance =>
         create_node instance
                     (get (nc_root_node node_config) false)
                     (get (nc_terminal_node node_config) false)
                     (process_publishers node_config)
                     (process_subscribers node_config))
      (instance_names (nc_name node_config) (nc_qty node_config)).

Definition has_roles (node_config : NodeConfig) : bool :=
  contains (nc_root_node node_config) && contains (nc_terminal_node node_config).

Definition named_env1 (environment : Environment) : bool :=
  String.eqb (env_name environment) "env1".

(** The node entries [get_nodes] visits. *)
Definition selected_nodes (config : Config) : list NodeConfig :=
  flat_map env_nodes (filter named_env1 (environments config)).

Definition produced (outcome : Exc (list Node)) : list Node :=
  match outcome with
  | inr descriptors => descriptors
  | inl _ => []
  end.

(** *** Rule violations, listed in document order *)

Definition first_violation (violations : list Exception) : Exc unit :=
  match violations with
  | [] => ok tt
  | e :: _ => raise e
  end.

Definition when_ (b : bool) (e : Exception) : list Exception :=
  if b then [e] else [].

Definition publisher_violations (node_config : NodeConfig) (publisher : Publisher)
  : list Exception :=
  when_ (get (pub_qty publisher) 1 <? 1)
        (ValueError (Msg.publisher_qty (pub_name publisher) (nc_name node_config)))
  ++ when_ (parameter_count publisher <? 2)
        (ValueError (Msg.publisher_parameters (pub_name publisher) (nc_name node_config))).

Definition subscriber_violations (node_config : NodeConfig) (subscriber : Subscriber)
  : list Exception :=
  when_ (get (sub_qty subscriber) 1 <? 1)
        (ValueError (Msg.subscriber_qty (sub_name subscriber) (nc_name node_config))).

Definition role_violations (node_config : NodeConfig) : list Exception :=
  let root_node := get (nc_root_node node_config) false in
  let terminal_node := get (nc_terminal_node node_config) false in
  when_ (root_node && terminal_node)
        (ValueError (Msg.both_roles (nc_name node_config)))
  ++ when_ (root_node && contains (nc_subscribers node_config))
        (ValueError (Msg.root_subscribers (nc_name node_config)))
  ++ when_ (terminal_node && contains (nc_publishers node_config))
        (ValueError (Msg.terminal_publishers (nc_name node_config))).

Definition node_violations (node_config : NodeConfig) : list Exception :=
  when_ (get (nc_qty node_config) 1 <? 1)
        (ValueError (Msg.node_qty (nc_name node_config)))
  ++ flat_map (publisher_violations node_config) (get (nc_publishers node_config) [])
  ++ flat_map (subscriber_violations node_config) (get (nc_subscribers node_config) [])
  ++ role_violations node_config.

Definition violations (config : Config) : list Exception :=
  flat_map (fun environment => flat_map node_violations (env_nodes environment))
           (environments config).

(** A quantity error is recognised by how its message starts. *)
Definition is_quantity_error (e : Exception) : bool :=
  match e with
  | ValueError message => String.prefix "Invalid " message
  | KeyError _ => false
  end.

(** Performing a sequence of dict assignments in order. *)
Definition assign_all {V : Type} (entries : list (string * V)) (d : Dict.dict V)
  : Dict.dict V :=
  fold_left (fun d kv => Dict.set (fst kv) (snd kv) d) entries d.

(** ** Sample documents *)

(** The two-node document: a root [sensor] publishing [img], a terminal
    [consumer] subscribing to it. *)
Definition sensor_consumer : Config :=
  mkConfig [ mkEnvironment "env1"
    [ mkNodeConfig "sensor" (Some true) (Some false) (Some 1)
        (Some [ mkPublisher "img" (Some 1) (Some 50) (Some 100) None ]) None;
      mkNodeConfig "consumer" (Some false) (Some true) (Some 1)
        None (Some [ mkSubscriber "img" "sensor" (Some 1) ]) ] ].

(** A node with two publishers of the same topic name. *)
Definition twice_cam : NodeConfig :=
  mkNodeConfig "rig" (Some false) (Some false) None
    (Some [ mkPublisher "cam" None (Some 2) (Some 1) None;
            mkPublisher "cam" None None (Some 3) (Some 4) ])
    (Some [ mkSubscriber "cmd" "a" None; mkSubscriber "cmd" "b" None ]).

(** A root node whose [subscribers] key is there with an empty list. *)
Definition root_empty_subscribers : NodeConfig :=
  mkNodeConfig "r" (Some true) (Some false) None None (Some []).

(** A terminal node whose [publishers] key is there with an empty list. *)
Definition terminal_empty_publishers : NodeConfig :=
  mkNodeConfig "t" (Some false) (Some true) None (Some []) None.

(** A node that is both root and terminal, followed by a node of quantity 0. *)
Definition conflict_then_zero : Config :=
  mkConfig [ mkEnvironment "env1"
    [ mkNodeConfig "a" (Some true) (Some true) None None None;
      mkNodeConfig "b" (Some false) (Some false) (Some 0) None None ] ].

(** A node entry without the [root_node] and [terminal_node] keys. *)
Definition without_roles : Config :=
  mkConfig [ mkEnvironment "env1" [ mkNodeConfig "n" None None None None None ] ].

(** A document whose only environment is called [env2]. *)
Definition only_env2 : Config :=
  mkConfig [ mkEnvironment "env2"
               [ mkNodeConfig "n" (Some false) (Some false) None None None ] ].

(** A document with two environments called [env1]. *)
Definition two_env1 : Config :=
  mkConfig [ mkEnvironment "env1"
               [ mkNodeConfig "n" (Some false) (Some false) None None None ];
             mkEnvironment "env1"
               [ mkNodeConfig "m" (Some false) (Some false) None None None ] ].

(** ** Readings checked against the code *)

(** The root rule read on the list of subscribers: rejected with the root
    error exactly when the list is non-empty. *)
Definition root_rule_by_emptiness (node_config : NodeConfig) : Prop :=
  validate_node node_config
  = raise (ValueError (Msg.root_subscribers (nc_name node_config)))
  <-> get (nc_subscribers node_config) [] <> [].

Definition has_zero_quantity_node (config : Config) : bool :=
  existsb (fun environment =>
             existsb (fun node_config =>
                        match nc_qty node_config with
                        | Some 0 => true
                        | _ => false
                        end)
                     (env_nodes environment))
          (environments config).

(** The pipeline stops with a quantity error. *)
Definition raises_quantity_error (config : Config) : Prop :=
  exists e, generate_launch_description config = inl e /\ is_quantity_error e = true.

(** Expansion read with a target name: the descriptors of the one
    environment of that name, nothing when there is none. *)
Definition selects_target (target : string) (config : Config) : Prop :=
  let matching :=
    filter (fun environment => String.eqb (env_name environment) target)
           (environments config) in
  (matching = [] -> fst (get_nodes (init config)) = inr [])
  /\ (forall environment,
        matching = [environment] ->
        fst (get_nodes (init config)) = inr (flat_map descriptors (env_nodes environment))).

(** A second [get_nodes] call on the converter returns what the first did. *)
Definition repeated_call_same (config : Config) : Prop :=
  let first_call := get_nodes (init config) in
  fst (get_nodes (snd first_call)) = fst first_call.

(** A method that leaves [self.config] alone and touches [self.nodes] only
    by appending, the outcome and the appended descriptors not depending on
    the attributes of the converter. *)
Definition appends_only {A : Type} (m : Method A) : Prop :=
  exists outcome delta, forall before config,
    m {| nodes := before; config := config |}
    = (outcome, {| nodes := before ++ delta; config := config |}).

(** ** Rule predicates *)

Definition publisher_ok (publisher : Publisher) : bool :=
  (1 <=? get (pub_qty publisher) 1) && (2 <=? parameter_count publisher).

Definition subscriber_ok (subscriber : Subscriber) : bool :=
  1 <=? get (sub_qty subscriber) 1.

Definition roles_ok (node_config : NodeConfig) : bool :=
  let root_node := get (nc_root_node node_config) false in
  let terminal_node := get (nc_terminal_node node_config) false in
  negb (root_node && terminal_node)
  && negb (root_node && contains (nc_subscribers node_config))
  && negb (terminal_node && contains (nc_publishers node_config)).

Definition node_ok (node_config : NodeConfig) : bool :=
  (1 <=? get (nc_qty node_config) 1)
  && forallb publisher_ok (get (nc_publishers node_config) [])
  && forallb subscriber_ok (get (nc_subscribers node_config) [])
  && roles_ok node_config.

Definition config_ok (config : Config) : bool :=
  forallb (fun environment => forallb node_ok (env_nodes environment))
          (environments config).

(** Every node entry of the document, whatever its environment. *)
Definition all_nodes (config : Config) : list NodeConfig :=
  flat_map env_nodes (environments config).

(** ** Descriptor invariants *)

(** The constant part of what [create_node] builds. *)
Definition shaped (node : Node) : Prop :=
  package node = "fabric_nodes"
  /\ executable node = "dummy_node_exe"
  /\ namespace node = name node
  /\ output node = "screen"
  /\ length (parameters node) = 1%nat.

(** The roles and the topic maps of a descriptor agree with the role rules. *)
Definition roles_respected (node : Node) : Prop :=
  Forall (fun ps =>
            root_node ps && terminal_node ps = false
            /\ (root_node ps = true -> subscribe_topics ps = [])
            /\ (terminal_node ps = true -> publish_topics ps = []))
         (parameters node).

(** A method under which a property of all of [self.nodes] survives. *)
Definition keeps {A : Type} (P : Node -> Prop) (m : Method A) : Prop :=
  forall self, Forall P (nodes self) -> Forall P (nodes (snd (m self))).

(** The members of [l] in the order of their first occurrence, leaving out
    those already [seen]. *)
Fixpoint first_occurrences (seen l : list string) : list string :=
  match l with
  | [] => []
  | x :: l' =>
      if existsb (String.eqb x) seen then first_occurrences seen l'
      else x :: first_occurrences (seen ++ [x]) l'
  end.

(** * Properties *)

(** ** Strings *)

Lemma append_inj_l (s a b : string) : s ++ a = s ++ b -> a = b.
Proof.
  induction s as [|c s IH]; simpl; intros H.
  - exact H.
  - injection H as H. now apply IH.
Qed.

Lemma append_length (s t : string) :
  String.length (s ++ t) = (String.length s + String.length t)%nat.
Proof.
  induction s as [|c s IH]; simpl; [reflexivity | now rewrite IH].
Qed.

Lemma suffixed_neq (s t : string) : t <> "" -> s ++ t <> s.
Proof.
  intros Ht H.
  assert (L : String.length (s ++ t) = String.length s) by now rewrite H.
  rewrite append_length in L.
  destruct t as [|c t]; [now apply Ht | simpl in L; lia].
Qed.

Lemma suffix_eqb_false (s a b : string) :
  a <> b -> String.eqb (s ++ a) (s ++ b) = false.
Proof.
  intros Hab. apply String.eqb_neq. intros H. apply Hab.
  now apply append_inj_l in H.
Qed.

(** ** Dicts *)

Section DictFacts.

Context {V : Type}.
Implicit Types (d : Dict.dict V) (k : string) (v : V).

Lemma lookup_set_same k v d : Dict.lookup k (Dict.set k v d) = Some v.
Proof.
  induction d as [|[k' v'] d IH]; simpl.
  - now rewrite String.eqb_refl.
  - destruct (String.eqb k' k) eqn:E; simpl; rewrite E; [reflexivity | exact IH].
Qed.

Lemma lookup_set_other k k' v d :
  k <> k' -> Dict.lookup k' (Dict.set k v d) = Dict.lookup k' d.
Proof.
  intros Hne. induction d as [|[k0 v0] d IH]; simpl.
  - apply String.eqb_neq in Hne. now rewrite Hne.
  - destruct (String.eqb k0 k) eqn:E; simpl.
    + apply String.eqb_eq in E. subst k0.
      apply String.eqb_neq in Hne. now rewrite Hne.
    + destruct (String.eqb k0 k'); [reflexivity | exact IH].
Qed.

Lemma lookup_set k k' v d :
  Dict.lookup k' (Dict.set k v d)
  = if String.eqb k k' then Some v else Dict.lookup k' d.
Proof.
  destruct (String.eqb k k') eqn:E.
  - apply String.eqb_eq in E. subst. apply lookup_set_same.
  - apply String.eqb_neq in E. now apply lookup_set_other.
Qed.

Lemma lookup_app k d d' :
  Dict.lookup k (d ++ d')%list
  = match Dict.lookup k d with Some v => Some v | None => Dict.lookup k d' end.
Proof.
  induction d as [|[k0 v0] d IH]; simpl; [reflexivity|].
  destruct (String.eqb k0 k); [reflexivity | exact IH].
Qed.

Lemma in_keys_set x k v d :
  In x (Dict.keys (Dict.set k v d)) <-> x = k \/ In x (Dict.keys d).
Proof.
  unfold Dict.keys. induction d as [|[k0 v0] d IH]; simpl.
  - intuition.
  - destruct (String.eqb k0 k) eqn:E; simpl.
    + apply String.eqb_eq in E. subst k0. intuition.
    + rewrite IH. intuition.
Qed.

Lemma NoDup_keys_set k v d :
  NoDup (Dict.keys d) -> NoDup (Dict.keys (Dict.set k v d)).
Proof.
  induction d as [|[k0 v0] d IH]; simpl; intros Hnd.
  - constructor; [easy | constructor].
  - destruct (String.eqb k0 k) eqn:E; simpl.
    + exact Hnd.
    + inversion Hnd as [|? ? Hnin Hnd']; subst.
      constructor; [|now apply IH].
      intros Hin. apply in_keys_set in Hin. destruct Hin as [->|Hin].
      * now rewrite String.eqb_refl in E.
      * now apply Hnin.
Qed.

Lemma assign_all_app (es es' : list (string * V)) d :
  assign_all (es ++ es')%list d = assign_all es' (assign_all es d).
Proof. apply fold_left_app. Qed.

(** A lookup after a run of assignments sees the last assignment to the
    key, and the old dict where the key was never assigned. *)
Lemma lookup_assign_all k (es : list (string * V)) d :
  Dict.lookup k (assign_all es d)
  = match last_binding k es with
    | Some v => Some v
    | None => Dict.lookup k d
    end.
Proof.
  revert d. induction es as [|[k0 v0] es IH]; intros d.
  - reflexivity.
  - change (assign_all ((k0, v0) :: es) d) with (assign_all es (Dict.set k0 v0 d)).
    rewrite IH. unfold last_binding. simpl rev. rewrite lookup_app.
    destruct (Dict.lookup k (rev es)); [reflexivity|].
    rewrite lookup_set. simpl. now destruct (String.eqb k0 k).
Qed.

Lemma NoDup_keys_assign_all (es : list (string * V)) d :
  NoDup (Dict.keys d) -> NoDup (Dict.keys (assign_all es d)).
Proof.
  revert d. induction es as [|[k0 v0] es IH]; intros d Hnd; [exact Hnd|].
  apply IH. now apply NoDup_keys_set.
Qed.

Lemma keys_assign_all_incl (es : list (string * V)) d :
  incl (Dict.keys (assign_all es d)) (Dict.keys d ++ map fst es)%list.
Proof.
  revert d. induction es as [|[k0 v0] es IH]; intros d x Hx.
  - simpl in *. now rewrite app_nil_r.
  - apply IH in Hx. apply in_app_or in Hx. apply in_or_app.
    destruct Hx as [Hx|Hx].
    + apply in_keys_set in Hx. destruct Hx as [->|Hx]; [right; now left | now left].
    + right. now right.
Qed.

End DictFacts.

Lemma has_duplicates_NoDup (l : list string) :
  NoDup l -> has_duplicates l = false.
Proof.
  induction 1 as [|x l Hnin Hnd IH]; simpl; [reflexivity|].
  rewrite IH, orb_false_r.
  destruct (existsb (String.eqb x) l) eqn:E; [|reflexivity].
  apply existsb_exists in E. destruct E as [y [Hy Exy]].
  apply String.eqb_eq in Exy. now subst.
Qed.

(** Assigning into an empty dict never creates more entries than there were
    assignments, and strictly fewer when a key was assigned twice. *)
Lemma assign_all_length {V : Type} (es : list (string * V)) :
  (length (assign_all es Dict.empty) <= length es)%nat
  /\ (has_duplicates (map fst es) = true ->
      (length (assign_all es Dict.empty) < length es)%nat).
Proof.
  assert (Hnd : NoDup (Dict.keys (assign_all es (@Dict.empty V))))
    by (apply NoDup_keys_assign_all; constructor).
  assert (Hincl : incl (Dict.keys (assign_all es (@Dict.empty V))) (map fst es))
    by apply (keys_assign_all_incl es Dict.empty).
  assert (Hlen : length (Dict.keys (assign_all es (@Dict.empty V)))
                 = length (assign_all es (@Dict.empty V)))
    by apply length_map.
  split.
  - rewrite <- Hlen, <- (length_map fst es). now apply NoDup_incl_length.
  - intros Hdup.
    destruct (Nat.lt_ge_cases (length (assign_all es (@Dict.empty V))) (length es))
      as [Hlt|Hge]; [exact Hlt|].
    exfalso.
    assert (NoDup (map fst es)) as Hnd'.
    { eapply NoDup_incl_NoDup; [exact Hnd | | exact Hincl].
      now rewrite Hlen, length_map. }
    apply has_duplicates_NoDup in Hnd'. congruence.
Qed.

(** ** Topic maps as runs of assignments *)

Lemma replicate_topic_assign {V : Type} (topic_name : string) (qty : Z) (topic : V)
    (topics : Dict.dict V) :
  replicate_topic topic_name qty topic topics
  = assign_all (map (fun k => (k, topic)) (replica_names topic_name qty)) topics.
Proof.
  unfold replicate_topic, replica_names.
  destruct (negb (qty =? 1)); [|reflexivity].
  generalize (range 1 (qty + 1)) as nums. intros nums. revert topics.
  induction nums as [|num nums IH]; intros topics; [reflexivity|].
  simpl. apply IH.
Qed.

Lemma process_publishers_assign (node_config : NodeConfig) :
  process_publishers node_config = assign_all (publisher_entries node_config) Dict.empty.
Proof.
  unfold process_publishers, publisher_entries.
  destruct (nc_publishers node_config) as [publishers|]; [|reflexivity].
  simpl get. generalize (@Dict.empty (Dict.dict Z)) as d.
  induction publishers as [|p publishers IH]; intros d; [reflexivity|].
  simpl. rewrite assign_all_app, <- replicate_topic_assign. apply IH.
Qed.

Lemma process_subscribers_assign (node_config : NodeConfig) :
  process_subscribers node_config = assign_all (subscriber_entries node_config) Dict.empty.
Proof.
  unfold process_subscribers, subscriber_entries.
  destruct (nc_subscribers node_config) as [subscribers|]; [|reflexivity].
  simpl get. generalize (@Dict.empty (Dict.dict string)) as d.
  induction subscribers as [|s subscribers IH]; intros d; [reflexivity|].
  simpl. rewrite assign_all_app, <- replicate_topic_assign. apply IH.
Qed.

Lemma range_length (start stop : Z) : length (range start stop) = Z.to_nat (stop - start).
Proof. unfold range. now rewrite length_map, length_seq. Qed.

Lemma replica_names_length (topic_name : string) (qty : Z) :
  1 <= qty -> Z.of_nat (length (replica_names topic_name qty)) = qty.
Proof.
  intros Hq. unfold replica_names.
  destruct (qty =? 1) eqn:E; simpl.
  - apply Z.eqb_eq in E. now subst.
  - rewrite length_map, range_length. lia.
Qed.

Lemma entries_length {A V : Type} (name_of : A -> string) (qty_of : A -> Z)
    (topic_of : A -> V) (specs : list A) :
  (forall x, In x specs -> 1 <= qty_of x) ->
  Z.of_nat (length (flat_map (fun x => map (fun k => (k, topic_of x))
                                           (replica_names (name_of x) (qty_of x)))
                             specs))
  = total_quantity (map qty_of specs).
Proof.
  induction specs as [|x specs IH]; intros Hq; [reflexivity|].
  simpl. rewrite length_app, length_map, Nat2Z.inj_add.
  rewrite replica_names_length by (apply Hq; now left).
  rewrite IH by (intros y Hy; apply Hq; now right).
  reflexivity.
Qed.

(** C10: a topic name written more than once by the publisher (or the
    subscriber) loop keeps the value of the last write only: every lookup
    in the resulting map returns the last assignment made to that name, and
    when some name is written twice the map has fewer entries than the sum
    of the specs' quantities. *)
Theorem topic_maps_last_write_wins (node_config : NodeConfig) :
  (forall k, Dict.lookup k (process_publishers node_config)
             = last_binding k (publisher_entries node_config))
  /\ (forall k, Dict.lookup k (process_subscribers node_config)
                = last_binding k (subscriber_entries node_config))
  /\ (has_duplicates (map fst (publisher_entries node_config)) = true ->
      (forall p, In p (get (nc_publishers node_config) []) -> 1 <= get (pub_qty p) 1) ->
      Z.of_nat (length (process_publishers node_config))
      < total_quantity (map (fun p => get (pub_qty p) 1)
                            (get (nc_publishers node_config) [])))
  /\ (has_duplicates (map fst (subscriber_entries node_config)) = true ->
      (forall s, In s (get (nc_subscribers node_config) []) -> 1 <= get (sub_qty s) 1) ->
      Z.of_nat (length (process_subscribers node_config))
      < total_quantity (map (fun s => get (sub_qty s) 1)
                            (get (nc_subscribers node_config) []))).
Proof.
  rewrite process_publishers_assign, process_subscribers_assign.
  repeat split.
  - intros k. rewrite lookup_assign_all.
    now destruct (last_binding k (publisher_entries node_config)).
  - intros k. rewrite lookup_assign_all.
    now destruct (last_binding k (subscriber_entries node_config)).
  - intros Hdup Hq.
    rewrite <- (entries_length pub_name (fun p => get (pub_qty p) 1) publish_topic_of)
      by exact Hq.
    apply Nat2Z.inj_lt. now apply assign_all_length.
  - intros Hdup Hq.
    rewrite <- (entries_length sub_name (fun s => get (sub_qty s) 1)
                  (fun s => Dict.set "node" (sub_node s) Dict.empty))
      by exact Hq.
    apply Nat2Z.inj_lt. now apply assign_all_length.
Qed.

Lemma topic_maps_last_write_wins_witness :
  process_publishers twice_cam = [("cam", [("msg_size", 3); ("msg_frequency", 4)])]
  /\ Dict.lookup "cmd" (process_subscribers twice_cam) = Some [("node", "b")]
  /\ Z.of_nat (length (process_publishers twice_cam)) < 2
  /\ Z.of_nat (length (process_subscribers twice_cam)) < 2.
Proof.
  destruct (topic_maps_last_write_wins twice_cam) as (Hp & Hs & Hlp & Hls).
  split; [reflexivity|].
  split; [rewrite Hs; reflexivity|].
  split.
  - apply Hlp; [reflexivity|].
    intros p Hp'. simpl in Hp'. destruct Hp' as [<-|[<-|[]]]; simpl; lia.
  - apply Hls; [reflexivity|].
    intros s Hs'. simpl in Hs'. destruct Hs' as [<-|[<-|[]]]; simpl; lia.
Defined.

(** ** What one publisher contributes *)

Lemma lookup_In {V : Type} (k : string) (v : V) (d : Dict.dict V) :
  Dict.lookup k d = Some v -> In (k, v) d.
Proof.
  induction d as [|[k0 v0] d IH]; simpl; [discriminate|].
  destruct (String.eqb k0 k) eqn:E; intros H.
  - apply String.eqb_eq in E. injection H as ->. subst. now left.
  - right. now apply IH.
Qed.

Lemma last_binding_In {V : Type} (k : string) (v : V) (es : list (string * V)) :
  last_binding k es = Some v -> In (k, v) es.
Proof. intros H. apply in_rev. now apply lookup_In. Qed.

(** The per-topic mapping holds exactly the characterization fields the
    publisher entry has, with their values. *)
Lemma publish_topic_fields (publisher : Publisher) (k : string) :
  Dict.lookup k (publish_topic_of publisher)
  = if String.eqb "msg_size" k then pub_msg_size publisher
    else if String.eqb "bandwidth" k then pub_bandwidth publisher
    else if String.eqb "msg_frequency" k then pub_msg_frequency publisher
    else None.
Proof.
  unfold publish_topic_of, Dict.empty.
  destruct (pub_msg_size publisher), (pub_bandwidth publisher),
    (pub_msg_frequency publisher);
    rewrite ?lookup_set; cbn [Dict.lookup];
    destruct (String.eqb "msg_size" k) eqn:E1;
    destruct (String.eqb "bandwidth" k) eqn:E2;
    destruct (String.eqb "msg_frequency" k) eqn:E3;
    try reflexivity;
    repeat match goal with
           | H : String.eqb _ k = true |- _ => apply String.eqb_eq in H
           end;
    subst k; discriminate.
Qed.

(** C6: a publisher entry with quantity 2 that carries msg_size and
    bandwidth but no msg_frequency gives publish_topics exactly the keys
    [<name>_1] and [<name>_2], both mapped to the mapping with exactly those
    two fields; in general a per-topic mapping has exactly the fields present
    on its publisher entry, and every mapping stored in publish_topics is the
    one built from some publisher entry of the node. *)
Theorem publisher_qty_two_topics (node_config : NodeConfig) (topic_name : string)
    (size bandwidth : Z) :
  nc_publishers node_config
  = Some [ mkPublisher topic_name (Some 2) (Some bandwidth) (Some size) None ] ->
  process_publishers node_config
  = [ (topic_name ++ "_1", [("msg_size", size); ("bandwidth", bandwidth)]);
      (topic_name ++ "_2", [("msg_size", size); ("bandwidth", bandwidth)]) ]
  /\ (forall publisher k,
        Dict.lookup k (publish_topic_of publisher)
        = if String.eqb "msg_size" k then pub_msg_size publisher
          else if String.eqb "bandwidth" k then pub_bandwidth publisher
          else if String.eqb "msg_frequency" k then pub_msg_frequency publisher
          else None)
  /\ (forall other k topic,
        Dict.lookup k (process_publishers other) = Some topic ->
        exists publisher,
          In publisher (get (nc_publishers other) [])
          /\ In k (replica_names (pub_name publisher) (get (pub_qty publisher) 1))
          /\ topic = publish_topic_of publisher).
Proof.
  intros Hpubs. split; [|split].
  - unfold process_publishers. rewrite Hpubs. simpl.
    unfold process_publisher, replicate_topic, publish_topic_of. simpl.
    change (str 1) with "1". change (str 2) with "2".
    now rewrite (suffix_eqb_false topic_name "_1" "_2").
  - exact publish_topic_fields.
  - intros other k topic Hk.
    rewrite process_publishers_assign, lookup_assign_all in Hk.
    destruct (last_binding k (publisher_entries other)) as [v|] eqn:Hlast;
      [|discriminate].
    injection Hk as ->. apply last_binding_In in Hlast.
    unfold publisher_entries in Hlast. apply in_flat_map in Hlast.
    destruct Hlast as [publisher [Hin Hentry]].
    apply in_map_iff in Hentry. destruct Hentry as [k' [Heq Hk']].
    injection Heq as Hkey Htopic. subst k' topic. now exists publisher.
Qed.

Lemma publisher_qty_two_topics_witness :
  process_publishers
    (mkNodeConfig "rig" (Some true) (Some false) None
       (Some [ mkPublisher "cam" (Some 2) (Some 50) (Some 100) None ]) None)
  = [ ("cam_1", [("msg_size", 100); ("bandwidth", 50)]);
      ("cam_2", [("msg_size", 100); ("bandwidth", 50)]) ].
Proof.
  apply (publisher_qty_two_topics
           (mkNodeConfig "rig" (Some true) (Some false) None
              (Some [ mkPublisher "cam" (Some 2) (Some 50) (Some 100) None ]) None)
           "cam" 100 50).
  reflexivity.
Defined.

(** ** The validator and the list of violations *)

Lemma first_violation_app (a b : list Exception) :
  first_violation (a ++ b) = bindE (first_violation a) (fun _ => first_violation b).
Proof. now destruct a. Qed.

Lemma first_violation_when (b : bool) (e : Exception) (rest : list Exception) :
  first_violation (when_ b e ++ rest) = if b then raise e else first_violation rest.
Proof. now destruct b. Qed.

Lemma for_each_first_violation {A : Type} (body : A -> Exc unit)
    (violations_of : A -> list Exception) (l : list A) :
  (forall x, In x l -> body x = first_violation (violations_of x)) ->
  for_each body l = first_violation (flat_map violations_of l).
Proof.
  induction l as [|x l IH]; intros Hbody; [reflexivity|].
  simpl. rewrite first_violation_app, Hbody by now left.
  rewrite IH by (intros y Hy; apply Hbody; now right).
  reflexivity.
Qed.

Lemma validate_publisher_first (node_config : NodeConfig) (publisher : Publisher) :
  validate_publisher node_config publisher
  = first_violation (publisher_violations node_config publisher).
Proof.
  unfold validate_publisher, publisher_violations.
  rewrite first_violation_when.
  destruct (get (pub_qty publisher) 1 <? 1); [reflexivity|].
  now destruct (parameter_count publisher <? 2).
Qed.

Lemma validate_subscriber_first (node_config : NodeConfig) (subscriber : Subscriber) :
  validate_subscriber node_config subscriber
  = first_violation (subscriber_violations node_config subscriber).
Proof.
  unfold validate_subscriber, subscriber_violations.
  now destruct (get (sub_qty subscriber) 1 <? 1).
Qed.

Lemma validate_roles_first (node_config : NodeConfig) :
  validate_roles node_config = first_violation (role_violations node_config).
Proof.
  unfold validate_roles, role_violations. cbv zeta.
  rewrite !first_violation_when.
  destruct (get (nc_root_node node_config) false && get (nc_terminal_node node_config) false);
    [reflexivity|].
  destruct (get (nc_root_node node_config) false && contains (nc_subscribers node_config));
    [reflexivity|].
  now destruct (get (nc_terminal_node node_config) false && contains (nc_publishers node_config)).
Qed.

Lemma validate_node_first (node_config : NodeConfig) :
  validate_node node_config = first_violation (node_violations node_config).
Proof.
  unfold validate_node, node_violations. cbv zeta.
  rewrite first_violation_when.
  destruct (get (nc_qty node_config) 1 <? 1); [reflexivity|].
  rewrite !first_violation_app.
  rewrite (for_each_first_violation _ (publisher_violations node_config))
    by (intros; apply validate_publisher_first).
  rewrite (for_each_first_violation _ (subscriber_violations node_config))
    by (intros; apply validate_subscriber_first).
  now rewrite validate_roles_first.
Qed.

Lemma validate_config_first (config : Config) :
  validate_config config = first_violation (violations config).
Proof.
  unfold validate_config, violations.
  apply for_each_first_violation. intros environment _.
  apply for_each_first_violation. intros node_config _.
  apply validate_node_first.
Qed.

(** Whatever violates a rule anywhere in the document makes the validator raise. *)
Lemma violation_rejected (config : Config) (e : Exception) :
  In e (violations config) -> exists first, validate_config config = inl first.
Proof.
  rewrite validate_config_first.
  destruct (violations config) as [|first rest]; [easy|].
  intros _. now exists first.
Qed.

Lemma node_violation_in_config (config : Config) (environment : Environment)
    (node_config : NodeConfig) (e : Exception) :
  In environment (environments config) ->
  In node_config (env_nodes environment) ->
  In e (node_violations node_config) ->
  In e (violations config).
Proof.
  intros He Hn Hv. unfold violations.
  apply in_flat_map. exists environment. split; [exact He|].
  apply in_flat_map. now exists node_config.
Qed.

(** C8: the validator returns normally when no rule is violated and otherwise
    raises the first violation of the document, taken in environment order,
    then node order, then publisher and subscriber order inside the node. *)
Theorem validate_config_first_violation (config : Config) :
  validate_config config = first_violation (violations config)
  /\ (forall e rest, violations config = e :: rest -> validate_config config = inl e).
Proof.
  split; [apply validate_config_first|].
  intros e rest Hv. now rewrite validate_config_first, Hv.
Qed.

Lemma validate_config_first_violation_witness :
  validate_config conflict_then_zero
  = inl (ValueError "Node 'a' cannot be both a terminal node and a root node").
Proof.
  apply (proj2 (validate_config_first_violation conflict_then_zero)
               (ValueError "Node 'a' cannot be both a terminal node and a root node")
               [ValueError "Invalid node quantity for node 'b'"]).
  reflexivity.
Defined.

(** ** The publisher parameter rule *)

Lemma parameter_count_range (publisher : Publisher) : 0 <= parameter_count publisher <= 3.
Proof.
  unfold parameter_count.
  destruct (pub_bandwidth publisher), (pub_msg_size publisher),
    (pub_msg_frequency publisher); simpl; lia.
Qed.

Lemma publisher_messages_differ (publisher node publisher' node' : string) :
  Msg.publisher_qty publisher node <> Msg.publisher_parameters publisher' node'.
Proof. unfold Msg.publisher_qty, Msg.publisher_parameters. simpl. discriminate. Qed.

(** C7: a publisher entry carrying 0 or 1 of bandwidth, msg_size and
    msg_frequency is rejected, with the parameter error as soon as its
    quantity is valid, and so is every document that contains it; with 2 or 3
    of them the parameter error is never raised, and the entry passes
    whenever its quantity is valid. *)
Theorem publisher_parameter_rule (node_config : NodeConfig) (publisher : Publisher) :
  (parameter_count publisher < 2 ->
   exists e, validate_publisher node_config publisher = inl e)
  /\ (parameter_count publisher < 2 ->
      1 <= get (pub_qty publisher) 1 ->
      validate_publisher node_config publisher
      = raise (ValueError (Msg.publisher_parameters (pub_name publisher)
                                                    (nc_name node_config))))
  /\ (parameter_count publisher < 2 ->
      In publisher (get (nc_publishers node_config) []) ->
      forall config environment,
        In environment (environments config) ->
        In node_config (env_nodes environment) ->
        exists e, validate_config config = inl e)
  /\ (2 <= parameter_count publisher ->
      validate_publisher node_config publisher
      <> raise (ValueError (Msg.publisher_parameters (pub_name publisher)
                                                     (nc_name node_config))))
  /\ (2 <= parameter_count publisher ->
      1 <= get (pub_qty publisher) 1 ->
      validate_publisher node_config publisher = ok tt).
Proof.
  unfold validate_publisher. cbv zeta.
  repeat split.
  - intros Hc. apply Z.ltb_lt in Hc. rewrite Hc.
    destruct (get (pub_qty publisher) 1 <? 1); eexists; reflexivity.
  - intros Hc Hq. apply Z.ltb_lt in Hc. apply Z.ltb_ge in Hq. now rewrite Hc, Hq.
  - intros Hc Hin config environment He Hn.
    apply (violation_rejected config
             (ValueError (Msg.publisher_parameters (pub_name publisher)
                                                   (nc_name node_config)))).
    apply (node_violation_in_config config environment node_config); try assumption.
    unfold node_violations. apply in_or_app. right. apply in_or_app. left.
    apply in_flat_map. exists publisher. split; [exact Hin|].
    unfold publisher_violations. apply in_or_app. right.
    apply Z.ltb_lt in Hc. rewrite Hc. now left.
  - intros Hc. apply Z.ltb_ge in Hc. rewrite Hc.
    destruct (get (pub_qty publisher) 1 <? 1); [|discriminate].
    intros H.
    apply (publisher_messages_differ (pub_name publisher) (nc_name node_config)
                                     (pub_name publisher) (nc_name node_config)).
    unfold raise in H. congruence.
  - intros Hc Hq. apply Z.ltb_ge in Hc. apply Z.ltb_ge in Hq. now rewrite Hc, Hq.
Qed.

Lemma publisher_parameter_rule_witness :
  validate_publisher twice_cam (mkPublisher "lidar" None (Some 7) None None)
  = inl (ValueError "Publisher 'lidar' in node 'rig' must have at least two of the following parameters: bandwidth, msg_size, msg_frequency")
  /\ validate_publisher twice_cam (mkPublisher "cam" None (Some 2) (Some 1) None) = inr tt.
Proof.
  split.
  - apply (proj1 (proj2 (publisher_parameter_rule twice_cam
                           (mkPublisher "lidar" None (Some 7) None None))));
      unfold parameter_count; simpl; lia.
  - apply (proj2 (proj2 (proj2 (proj2 (publisher_parameter_rule twice_cam
                           (mkPublisher "cam" None (Some 2) (Some 1) None))))));
      unfold parameter_count; simpl; lia.
Defined.

(** ** The root and terminal rules *)

Lemma validate_node_roles (node_config : NodeConfig) :
  1 <= get (nc_qty node_config) 1 ->
  for_each (validate_publisher node_config) (get (nc_publishers node_config) []) = ok tt ->
  for_each (validate_subscriber node_config) (get (nc_subscribers node_config) []) = ok tt ->
  validate_node node_config = validate_roles node_config.
Proof.
  intros Hq Hp Hs. unfold validate_node. cbv zeta.
  apply Z.ltb_ge in Hq. now rewrite Hq, Hp, Hs.
Qed.

(** C4: for a node entry whose quantities and publisher parameters pass, a
    root node that is not also terminal is rejected with the root error
    exactly when its entry has a [subscribers] key, whatever the list under
    it, and passes when the key is absent; a terminal node that is not also
    root is rejected with the terminal error exactly when its entry has a
    [publishers] key, and passes when the key is absent. *)
Theorem role_rules_by_key_presence (node_config : NodeConfig) :
  1 <= get (nc_qty node_config) 1 ->
  for_each (validate_publisher node_config) (get (nc_publishers node_config) []) = ok tt ->
  for_each (validate_subscriber node_config) (get (nc_subscribers node_config) []) = ok tt ->
  (get (nc_root_node node_config) false = true ->
   get (nc_terminal_node node_config) false = false ->
   validate_node node_config
   = if contains (nc_subscribers node_config)
     then raise (ValueError (Msg.root_subscribers (nc_name node_config)))
     else ok tt)
  /\ (get (nc_terminal_node node_config) false = true ->
      get (nc_root_node node_config) false = false ->
      validate_node node_config
      = if contains (nc_publishers node_config)
        then raise (ValueError (Msg.terminal_publishers (nc_name node_config)))
        else ok tt).
Proof.
  intros Hq Hp Hs. rewrite (validate_node_roles _ Hq Hp Hs).
  unfold validate_roles. cbv zeta.
  split; intros H1 H2; rewrite H1, H2; simpl.
  - now destruct (contains (nc_subscribers node_config)).
  - reflexivity.
Qed.

Lemma role_rules_by_key_presence_witness :
  validate_node root_empty_subscribers
  = inl (ValueError "Root node 'r' cannot have subscribers")
  /\ validate_node terminal_empty_publishers
     = inl (ValueError "Terminal node 't' cannot have publishers").
Proof.
  split.
  - apply (proj1 (role_rules_by_key_presence root_empty_subscribers
                    ltac:(simpl; lia) eq_refl eq_refl)); reflexivity.
  - apply (proj2 (role_rules_by_key_presence terminal_empty_publishers
                    ltac:(simpl; lia) eq_refl eq_refl)); reflexivity.
Defined.

(** C4, as stated, fails: a root node with [subscribers: []] declares no
    subscriber and is rejected with the root error all the same. *)
Lemma root_with_empty_subscribers_rejected :
  get (nc_subscribers root_empty_subscribers) [] = []
  /\ validate_node root_empty_subscribers
     = raise (ValueError (Msg.root_subscribers (nc_name root_empty_subscribers)))
  /\ ~ root_rule_by_emptiness root_empty_subscribers.
Proof.
  split; [reflexivity|]. split; [reflexivity|].
  intros [Hraise _]. now apply Hraise.
Qed.

(** ** Validation gates the expansion *)

Lemma load_config_error (document : Config) (e : Exception) :
  validate_config document = inl e ->
  load_config document = inl e /\ generate_launch_description document = inl e.
Proof.
  intros H. unfold generate_launch_description, load_config. now rewrite H.
Qed.

Lemma for_each_app {A : Type} (body : A -> Exc unit) (l l' : list A) :
  for_each body (l ++ l')%list = bindE (for_each body l) (fun _ => for_each body l').
Proof.
  induction l as [|x l IH]; simpl; [reflexivity|].
  destruct (body x); [reflexivity | exact IH].
Qed.

(** C9: a document in which some node has a quantity below 1, 0 included,
    never reaches the expansion: [load_config] raises the first violation of
    the document, the pipeline ends with that same error and hands over no
    descriptor; the error is the quantity error of that node when everything
    before the node in the document is valid. *)
Theorem zero_quantity_rejected_before_expansion (config : Config)
    (environment : Environment) (node_config : NodeConfig) :
  In environment (environments config) ->
  In node_config (env_nodes environment) ->
  get (nc_qty node_config) 1 < 1 ->
  (exists e,
      hd_error (violations config) = Some e
      /\ load_config config = inl e
      /\ generate_launch_description config = inl e)
  /\ produced (generate_launch_description config) = []
  /\ (forall envs_before envs_after nodes_before nodes_after,
        environments config = (envs_before ++ environment :: envs_after)%list ->
        env_nodes environment = (nodes_before ++ node_config :: nodes_after)%list ->
        validate_config (mkConfig envs_before) = ok tt ->
        for_each validate_node nodes_before = ok tt ->
        generate_launch_description config
        = inl (ValueError (Msg.node_qty (nc_name node_config)))).
Proof.
  intros He Hn Hq.
  assert (Hin : In (ValueError (Msg.node_qty (nc_name node_config))) (violations config)).
  { apply (node_violation_in_config config environment node_config _ He Hn).
    unfold node_violations. apply in_or_app. left.
    apply Z.ltb_lt in Hq. rewrite Hq. now left. }
  assert (Hfirst : exists e, hd_error (violations config) = Some e
                             /\ validate_config config = inl e).
  { rewrite validate_config_first.
    destruct (violations config) as [|e rest]; [easy|]. now exists e. }
  destruct Hfirst as [e [Hhd Hval]].
  destruct (load_config_error config e Hval) as [Hload Hgen].
  split; [now exists e|]. split; [now rewrite Hgen|].
  intros envs_before envs_after nodes_before nodes_after Henvs Hnodes Hbefore Hnb.
  apply load_config_error.
  unfold validate_config in *. simpl in Hbefore.
  rewrite Henvs, for_each_app, Hbefore. simpl.
  rewrite Hnodes, for_each_app, Hnb. simpl.
  unfold validate_node. cbv zeta. apply Z.ltb_lt in Hq. now rewrite Hq.
Qed.

Lemma zero_quantity_rejected_before_expansion_witness :
  produced (generate_launch_description conflict_then_zero) = []
  /\ generate_launch_description
       (mkConfig [ mkEnvironment "env1"
                     [ mkNodeConfig "b" (Some false) (Some false) (Some 0) None None ] ])
     = inl (ValueError "Invalid node quantity for node 'b'").
Proof.
  split.
  - apply (zero_quantity_rejected_before_expansion conflict_then_zero
             (mkEnvironment "env1"
                [ mkNodeConfig "a" (Some true) (Some true) None None None;
                  mkNodeConfig "b" (Some false) (Some false) (Some 0) None None ])
             (mkNodeConfig "b" (Some false) (Some false) (Some 0) None None)).
    + simpl. left. reflexivity.
    + simpl. right. left. reflexivity.
    + simpl. lia.
  - apply (proj2 (proj2 (zero_quantity_rejected_before_expansion
             (mkConfig [ mkEnvironment "env1"
                [ mkNodeConfig "b" (Some false) (Some false) (Some 0) None None ] ])
             (mkEnvironment "env1"
                [ mkNodeConfig "b" (Some false) (Some false) (Some 0) None None ])
             (mkNodeConfig "b" (Some false) (Some false) (Some 0) None None)
             (or_introl eq_refl) (or_introl eq_refl) ltac:(simpl; lia)))
           [] [] [] []); reflexivity.
Defined.

(** C9, as stated, fails: with a role conflict on an earlier node the
    pipeline stops on that conflict, not on a quantity error, although a
    later node has quantity 0. *)
Lemma zero_quantity_other_error_first :
  has_zero_quantity_node conflict_then_zero = true
  /\ generate_launch_description conflict_then_zero
     = inl (ValueError "Node 'a' cannot be both a terminal node and a root node")
  /\ ~ raises_quantity_error conflict_then_zero.
Proof.
  split; [reflexivity|]. split; [reflexivity|].
  intros [e [He Hq]].
  change (generate_launch_description conflict_then_zero)
    with (@inl Exception (list Node)
            (ValueError "Node 'a' cannot be both a terminal node and a root node")) in He.
  injection He as <-. discriminate Hq.
Qed.

(** ** The converter *)

Lemma for_app {A : Type} (l l' : list A) (body : A -> Method unit) (self : Config2Nodes) :
  for_ (l ++ l')%list body self = bind (for_ l body) (fun _ => for_ l' body) self.
Proof.
  revert self. induction l as [|x l IH]; intros self; simpl.
  - reflexivity.
  - unfold bind in *. destruct (body x self) as [[e|[]] self1]; [reflexivity|].
    apply IH.
Qed.

Lemma for_append {A : Type} (l : list A) (make : A -> Node) (self : Config2Nodes) :
  for_ l (fun x => append (make x)) self
  = (inr tt, {| nodes := nodes self ++ map make l; config := config self |}).
Proof.
  revert self. induction l as [|x l IH]; intros self; simpl.
  - destruct self; unfold ret; simpl. now rewrite app_nil_r.
  - unfold bind, append at 1. rewrite IH. simpl. now rewrite <- app_assoc.
Qed.

Lemma generate_node_appends (node_config : NodeConfig) (node_name : string)
    (root_node terminal_node : bool) (publish_topics : Dict.dict (Dict.dict Z))
    (subscribe_topics : Dict.dict (Dict.dict string)) (self : Config2Nodes) :
  generate_node node_config node_name root_node terminal_node
                publish_topics subscribe_topics self
  = (inr tt,
     {| nodes := nodes self
                 ++ map (fun instance => create_node instance root_node terminal_node
                                                     publish_topics subscribe_topics)
                        (instance_names node_name (nc_qty node_config));
        config := config self |}).
Proof.
  unfold generate_node, instance_names.
  destruct (nc_qty node_config) as [node_qty|].
  - rewrite (for_append _ (fun num => create_node (node_name ++ "_" ++ str num)
                                         root_node terminal_node
                                         publish_topics subscribe_topics)).
    now rewrite map_map.
  - reflexivity.
Qed.

Lemma get_nodes_node_roles (node_config : NodeConfig) (self : Config2Nodes) :
  has_roles node_config = true ->
  get_nodes_node node_config self
  = (inr tt, {| nodes := nodes self ++ descriptors node_config; config := config self |}).
Proof.
  unfold has_roles, get_nodes_node, descriptors.
  destruct (nc_root_node node_config) as [r|]; [|discriminate].
  destruct (nc_terminal_node node_config) as [t|]; [|discriminate].
  intros _. simpl. unfold bind, ret. apply generate_node_appends.
Qed.

Lemma for_nodes_roles (node_configs : list NodeConfig) (self : Config2Nodes) :
  forallb has_roles node_configs = true ->
  for_ node_configs get_nodes_node self
  = (inr tt, {| nodes := nodes self ++ flat_map descriptors node_configs;
                config := config self |}).
Proof.
  revert self. induction node_configs as [|nc ncs IH]; intros self Hroles; simpl.
  - destruct self; unfold ret; simpl. now rewrite app_nil_r.
  - simpl in Hroles. apply andb_prop in Hroles. destruct Hroles as [Hnc Hncs].
    unfold bind. rewrite (get_nodes_node_roles nc self Hnc), (IH _ Hncs). simpl.
    now rewrite <- app_assoc.
Qed.

(** The environment loop visits the node entries of the environments called
    [env1], one after the other, and no other node entry. *)
Lemma for_environments_selected (envs : list Environment) (self : Config2Nodes) :
  for_ envs get_nodes_environment self
  = for_ (flat_map env_nodes (filter named_env1 envs)) get_nodes_node self.
Proof.
  revert self. induction envs as [|environment envs IH]; intros self; [reflexivity|].
  simpl. unfold get_nodes_environment at 1. fold (named_env1 environment).
  destruct (named_env1 environment); simpl.
  - rewrite for_app. unfold bind.
    destruct (for_ (env_nodes environment) get_nodes_node self) as [[e|[]] self1];
      [reflexivity | apply IH].
  - unfold bind, ret. apply IH.
Qed.

Lemma get_nodes_selected (self : Config2Nodes) :
  get_nodes self
  = bind (for_ (selected_nodes (config self)) get_nodes_node) (fun _ => self_nodes) self.
Proof.
  unfold get_nodes, selected_nodes, bind, self_config.
  now rewrite for_environments_selected.
Qed.

(** With both role keys on every visited node entry, [get_nodes] returns. *)
Lemma get_nodes_total (self : Config2Nodes) :
  forallb has_roles (selected_nodes (config self)) = true ->
  get_nodes self
  = (inr (nodes self ++ flat_map descriptors (selected_nodes (config self)))%list,
     {| nodes := nodes self ++ flat_map descriptors (selected_nodes (config self));
        config := config self |}).
Proof.
  intros Hroles. rewrite get_nodes_selected. unfold bind.
  now rewrite (for_nodes_roles _ self Hroles).
Qed.

(** ** What a call leaves in [self.nodes] *)

Section AppendsOnly.

Context {A B : Type}.

Lemma appends_only_ret (a : A) : appends_only (ret a).
Proof.
  exists (inr a), []. intros before config.
  unfold ret. now rewrite app_nil_r.
Qed.

Lemma appends_only_throw (e : Exception) : appends_only (@throw A e).
Proof.
  exists (inl e), []. intros before config.
  unfold throw. now rewrite app_nil_r.
Qed.

Lemma appends_only_index (field : option A) (key : string) :
  appends_only (index field key).
Proof.
  destruct field; [apply appends_only_ret | apply appends_only_throw].
Qed.

Lemma appends_only_bind (m : Method A) (k : A -> Method B) :
  appends_only m -> (forall a, appends_only (k a)) -> appends_only (bind m k).
Proof.
  intros [[e|a] [delta Hm]] Hk.
  - exists (inl e), delta. intros before config. unfold bind. now rewrite Hm.
  - destruct (Hk a) as [outcome [delta' Hk']].
    exists outcome, (delta ++ delta')%list. intros before config.
    unfold bind. now rewrite Hm, Hk', app_assoc.
Qed.

End AppendsOnly.

Lemma appends_only_for {A : Type} (l : list A) (body : A -> Method unit) :
  (forall x, appends_only (body x)) -> appends_only (for_ l body).
Proof.
  intros Hbody. induction l as [|x l IH]; simpl.
  - apply appends_only_ret.
  - apply appends_only_bind; [apply Hbody | intros _; exact IH].
Qed.

Lemma appends_only_generate_node (node_config : NodeConfig) (node_name : string)
    (root_node terminal_node : bool) (publish_topics : Dict.dict (Dict.dict Z))
    (subscribe_topics : Dict.dict (Dict.dict string)) :
  appends_only (generate_node node_config node_name root_node terminal_node
                              publish_topics subscribe_topics).
Proof.
  eexists. eexists. intros before config.
  rewrite generate_node_appends. reflexivity.
Qed.

Lemma appends_only_get_nodes_node (node_config : NodeConfig) :
  appends_only (get_nodes_node node_config).
Proof.
  unfold get_nodes_node.
  apply appends_only_bind; [apply appends_only_index | intros root_node].
  apply appends_only_bind; [apply appends_only_index | intros terminal_node].
  apply appends_only_generate_node.
Qed.

Lemma appends_only_get_nodes_environment (environment : Environment) :
  appends_only (get_nodes_environment environment).
Proof.
  unfold get_nodes_environment.
  destruct (negb (String.eqb (env_name environment) "env1")).
  - apply appends_only_ret.
  - apply appends_only_for. exact appends_only_get_nodes_node.
Qed.

(** [get_nodes] appends the same descriptors whatever [self.nodes] held, and
    returns the whole list. *)
Lemma get_nodes_frame (config : Config) :
  exists (outcome : Exc unit) (delta : list Node), forall before,
    get_nodes {| nodes := before; config := config |}
    = (match outcome with
       | inl e => inl e
       | inr _ => inr (before ++ delta)%list
       end,
       {| nodes := before ++ delta; config := config |}).
Proof.
  destruct (appends_only_for (environments config) get_nodes_environment
              appends_only_get_nodes_environment)
    as [outcome [delta Hloop]].
  exists outcome, delta. intros before.
  unfold get_nodes, bind, self_config, self_nodes. simpl.
  rewrite Hloop. now destruct outcome as [e|[]].
Qed.

Lemma app_self_neq {X : Type} (l : list X) : l <> [] -> (l ++ l)%list <> l.
Proof.
  intros Hl H. apply (f_equal (@length X)) in H. rewrite length_app in H.
  destruct l; [now apply Hl | simpl in H; lia].
Qed.

(** C3: on one converter a successful [get_nodes] call leaves its descriptors
    in [self.nodes], so the next call on that converter returns them twice
    over, which is another sequence as soon as there is a descriptor; a new
    converter over the same document returns the first sequence again. *)
Theorem get_nodes_repeated_call (document : Config) (first : list Node)
    (self' : Config2Nodes) :
  get_nodes (init document) = (inr first, self') ->
  self' = {| nodes := first; config := document |}
  /\ get_nodes self'
     = (inr (first ++ first)%list, {| nodes := first ++ first; config := document |})
  /\ (first <> [] -> fst (get_nodes self') <> inr first)
  /\ get_nodes (init (config self')) = (inr first, self').
Proof.
  intros Hfirst.
  destruct (get_nodes_frame document) as [outcome [delta Hframe]].
  unfold init in Hfirst. rewrite (Hframe []) in Hfirst. simpl in Hfirst.
  destruct outcome as [e|[]]; [discriminate|].
  injection Hfirst as Hdelta Hself. subst delta self'.
  assert (Hsecond : get_nodes {| nodes := first; config := document |}
                    = (inr (first ++ first)%list,
                       {| nodes := first ++ first; config := document |}))
    by apply (Hframe first).
  repeat split.
  - exact Hsecond.
  - intros Hne. rewrite Hsecond. simpl. intros H. injection H as H.
    now apply (app_self_neq first).
  - simpl. unfold init. now rewrite (Hframe []).
Qed.

Lemma get_nodes_repeated_call_witness :
  map name (produced (fst (get_nodes
     (snd (get_nodes (init sensor_consumer))))))
  = ["sensor_1"; "consumer_1"; "sensor_1"; "consumer_1"].
Proof.
  rewrite (proj1 (proj2 (get_nodes_repeated_call sensor_consumer
             (produced (fst (get_nodes (init sensor_consumer))))
             (snd (get_nodes (init sensor_consumer)))
             eq_refl))).
  reflexivity.
Defined.

(** C3, as stated, fails: the document validates, and the second call on
    the same converter returns four descriptors where the first returned two. *)
Lemma get_nodes_not_idempotent :
  validate_config sensor_consumer = ok tt
  /\ length (produced (fst (get_nodes (init sensor_consumer)))) = 2%nat
  /\ length (produced (fst (get_nodes (snd (get_nodes (init sensor_consumer)))))) = 4%nat
  /\ ~ repeated_call_same sensor_consumer.
Proof.
  split; [reflexivity|]. split; [reflexivity|]. split; [reflexivity|].
  unfold repeated_call_same. cbv zeta. intros H.
  apply (f_equal (fun outcome => length (produced outcome))) in H.
  vm_compute in H. discriminate H.
Qed.

(** ** Which environments are expanded *)

Lemma filter_filter {X : Type} (f : X -> bool) (l : list X) :
  filter f (filter f l) = filter f l.
Proof.
  induction l as [|x l IH]; [reflexivity|].
  simpl. destruct (f x) eqn:E; simpl; [rewrite E|]; now rewrite ?IH.
Qed.

(** Only the environments called [env1] count for the outcome. *)
Lemma get_nodes_filtered (document : Config) :
  fst (get_nodes (init document))
  = fst (get_nodes (init (mkConfig (filter named_env1 (environments document))))).
Proof.
  rewrite !get_nodes_selected. unfold bind, init, selected_nodes. simpl.
  rewrite filter_filter.
  destruct (appends_only_for
              (flat_map env_nodes (filter named_env1 (environments document)))
              get_nodes_node appends_only_get_nodes_node)
    as [outcome [delta Hloop]].
  rewrite !Hloop. now destruct outcome as [e|[]].
Qed.

(** C5: the target name is the constant [env1].  The expansion visits the
    node entries of every environment of that name, in document order, and
    of no other environment: its outcome is that of the document cut down to
    those environments, so to the single one when the name is unique; with no
    environment called [env1] it returns the empty sequence; and when the
    visited node entries have both role keys it returns their descriptors. *)
Theorem get_nodes_selects_env1 (document : Config) :
  fst (get_nodes (init document))
  = fst (get_nodes (init (mkConfig (filter named_env1 (environments document)))))
  /\ (filter named_env1 (environments document) = [] ->
      get_nodes (init document) = (inr [], init document))
  /\ (forall environment,
        filter named_env1 (environments document) = [environment] ->
        fst (get_nodes (init document)) = fst (get_nodes (init (mkConfig [environment]))))
  /\ (forallb has_roles (selected_nodes document) = true ->
      fst (get_nodes (init document)) = inr (flat_map descriptors (selected_nodes document))).
Proof.
  split; [apply get_nodes_filtered|]. split; [|split].
  - intros Hnone. rewrite get_nodes_selected. unfold selected_nodes. simpl.
    now rewrite Hnone.
  - intros environment Hone. now rewrite get_nodes_filtered, Hone.
  - intros Hroles. now rewrite (get_nodes_total (init document) Hroles).
Qed.

Lemma get_nodes_selects_env1_witness :
  get_nodes (init only_env2) = (inr [], init only_env2)
  /\ map name (produced (fst (get_nodes (init sensor_consumer))))
     = ["sensor_1"; "consumer_1"].
Proof.
  split.
  - apply (proj1 (proj2 (get_nodes_selects_env1 only_env2))). reflexivity.
  - rewrite (proj2 (proj2 (proj2 (get_nodes_selects_env1 sensor_consumer))) eq_refl).
    reflexivity.
Defined.

(** C5, as stated, fails: asked for [env2] on a document whose only
    environment is [env2], the expansion still returns nothing, while that
    environment has a node entry with a descriptor of its own. *)
Lemma get_nodes_ignores_other_target :
  validate_config only_env2 = ok tt
  /\ fst (get_nodes (init only_env2)) = inr []
  /\ ~ selects_target "env2" only_env2.
Proof.
  split; [reflexivity|]. split; [reflexivity|].
  intros [_ Hone].
  specialize (Hone (mkEnvironment "env2"
                      [ mkNodeConfig "n" (Some false) (Some false) None None None ])
                   eq_refl).
  vm_compute in Hone. discriminate Hone.
Qed.

(** With two environments called [env1] the descriptors of both come out. *)
Lemma get_nodes_two_env1 :
  validate_config two_env1 = ok tt
  /\ map name (produced (fst (get_nodes (init two_env1)))) = ["n"; "m"].
Proof. split; reflexivity. Qed.

(** ** Instance names *)

Lemma range_nth (start stop : Z) (i : nat) :
  (i < Z.to_nat (stop - start))%nat ->
  nth_error (range start stop) i = Some (start + Z.of_nat i).
Proof.
  intros Hi. unfold range.
  rewrite nth_error_map, nth_error_seq.
  apply Nat.ltb_lt in Hi. now rewrite Hi.
Qed.

(** Without a [qty] key the entry gives one descriptor under its own name. *)
Lemma generate_node_default_qty (node_config : NodeConfig) (node_name : string)
    (root_node terminal_node : bool) (publish_topics : Dict.dict (Dict.dict Z))
    (subscribe_topics : Dict.dict (Dict.dict string)) (self : Config2Nodes) :
  nc_qty node_config = None ->
  generate_node node_config node_name root_node terminal_node
                publish_topics subscribe_topics self
  = (inr tt,
     {| nodes := nodes self ++ [ create_node node_name root_node terminal_node
                                             publish_topics subscribe_topics ];
        config := config self |}).
Proof. intros Hq. rewrite generate_node_appends, Hq. reflexivity. Qed.

(** With [qty: n], [n] at least 1, the entry gives [n] descriptors, the
    [k]-th named [<name>_<k>], all with the same flags and topic maps. *)
Lemma generate_node_replicas (node_config : NodeConfig) (node_name : string)
    (root_node terminal_node : bool) (publish_topics : Dict.dict (Dict.dict Z))
    (subscribe_topics : Dict.dict (Dict.dict string)) (self : Config2Nodes) (n : Z) :
  nc_qty node_config = Some n ->
  1 <= n ->
  exists added,
    generate_node node_config node_name root_node terminal_node
                  publish_topics subscribe_topics self
    = (inr tt, {| nodes := nodes self ++ added; config := config self |})
    /\ Z.of_nat (length added) = n
    /\ forall k, 1 <= k <= n ->
         nth_error added (Z.to_nat (k - 1))
         = Some (create_node (node_name ++ "_" ++ str k) root_node terminal_node
                             publish_topics subscribe_topics).
Proof.
  intros Hq Hn. eexists. split; [apply generate_node_appends|].
  rewrite Hq. unfold instance_names. split.
  - rewrite !length_map, range_length. lia.
  - intros k Hk. rewrite !nth_error_map, range_nth by lia.
    replace (1 + Z.of_nat (Z.to_nat (k - 1))) with k by lia. reflexivity.
Qed.

(** C1 fails on the code for an explicit quantity of 1: [generate_node]
    tests whether the [qty] key is there, not whether the quantity differs
    from 1, so an entry with [qty: 1] gives one descriptor named [<name>_1],
    not [<name>]; the two-node document, whose entries say [qty: 1], expands
    to [sensor_1] and [consumer_1]. *)
Theorem generate_node_explicit_qty_one (node_name : string)
    (root terminal : option bool) (publishers : option (list Publisher))
    (subscribers : option (list Subscriber))
    (root_node terminal_node : bool) (publish_topics : Dict.dict (Dict.dict Z))
    (subscribe_topics : Dict.dict (Dict.dict string)) (self : Config2Nodes) :
  generate_node (mkNodeConfig node_name root terminal (Some 1) publishers subscribers)
                node_name root_node terminal_node publish_topics subscribe_topics self
  = (inr tt,
     {| nodes := nodes self ++ [ create_node (node_name ++ "_1") root_node terminal_node
                                             publish_topics subscribe_topics ];
        config := config self |})
  /\ node_name ++ "_1" <> node_name
  /\ validate_config sensor_consumer = ok tt
  /\ map name (produced (generate_launch_description sensor_consumer))
     = ["sensor_1"; "consumer_1"].
Proof.
  split; [now rewrite generate_node_appends|].
  split; [now apply suffixed_neq|].
  split; reflexivity.
Qed.

(** ** Role keys *)

(** C2 fails on the code: the validator reads [root_node] and
    [terminal_node] with a default and accepts a node entry that has neither
    key, and [get_nodes] then indexes [node_config['root_node']] and raises
    [KeyError]. *)
Theorem validated_config_missing_role_key :
  validate_config without_roles = ok tt
  /\ load_config without_roles = ok without_roles
  /\ get_nodes (init without_roles) = (inl (KeyError "root_node"), init without_roles)
  /\ generate_launch_description without_roles = inl (KeyError "root_node").
Proof. repeat split. Qed.


(** ** Error kinds *)

(** The three quantity messages are recognised, the four others are not. *)
Lemma is_quantity_error_messages (entity node : string) :
  is_quantity_error (ValueError (Msg.node_qty node)) = true
  /\ is_quantity_error (ValueError (Msg.publisher_qty entity node)) = true
  /\ is_quantity_error (ValueError (Msg.subscriber_qty entity node)) = true
  /\ is_quantity_error (ValueError (Msg.publisher_parameters entity node)) = false
  /\ is_quantity_error (ValueError (Msg.both_roles node)) = false
  /\ is_quantity_error (ValueError (Msg.root_subscribers node)) = false
  /\ is_quantity_error (ValueError (Msg.terminal_publishers node)) = false.
Proof. repeat split. Qed.

(** * Further properties *)

(** ** When the validator accepts *)

Lemma for_each_ok {A : Type} (body : A -> Exc unit) (accepts : A -> bool) (l : list A) :
  (forall x, In x l -> (body x = ok tt <-> accepts x = true)) ->
  (for_each body l = ok tt <-> forallb accepts l = true).
Proof.
  induction l as [|x l IH]; intros Hbody; simpl; [easy|].
  rewrite andb_true_iff, <- IH by (intros y Hy; apply Hbody; now right).
  rewrite <- (Hbody x) by now left.
  destruct (body x) as [e|[]]; simpl; unfold ok; intuition congruence.
Qed.

Lemma validate_publisher_ok (node_config : NodeConfig) (publisher : Publisher) :
  validate_publisher node_config publisher = ok tt <-> publisher_ok publisher = true.
Proof.
  unfold validate_publisher, publisher_ok. cbv zeta.
  rewrite andb_true_iff, !Z.leb_le.
  destruct (Z.ltb_spec (get (pub_qty publisher) 1) 1) as [Hq|Hq];
    destruct (Z.ltb_spec (parameter_count publisher) 2) as [Hc|Hc];
    unfold ok, raise; split; intros H; try discriminate; try lia; reflexivity.
Qed.

Lemma validate_subscriber_ok (node_config : NodeConfig) (subscriber : Subscriber) :
  validate_subscriber node_config subscriber = ok tt <-> subscriber_ok subscriber = true.
Proof.
  unfold validate_subscriber, subscriber_ok. cbv zeta. rewrite Z.leb_le.
  destruct (Z.ltb_spec (get (sub_qty subscriber) 1) 1) as [Hq|Hq];
    unfold ok, raise; split; intros H; try discriminate; try lia; reflexivity.
Qed.

Lemma validate_roles_ok (node_config : NodeConfig) :
  validate_roles node_config = ok tt <-> roles_ok node_config = true.
Proof.
  unfold validate_roles, roles_ok. cbv zeta.
  destruct (get (nc_root_node node_config) false),
    (get (nc_terminal_node node_config) false),
    (contains (nc_subscribers node_config)),
    (contains (nc_publishers node_config)); simpl; unfold ok, raise;
    split; intros H; try discriminate; reflexivity.
Qed.

Lemma validate_node_ok (node_config : NodeConfig) :
  validate_node node_config = ok tt <-> node_ok node_config = true.
Proof.
  unfold validate_node, node_ok. cbv zeta.
  rewrite !andb_true_iff, Z.leb_le.
  rewrite <- (for_each_ok (validate_publisher node_config) publisher_ok)
    by (intros; apply validate_publisher_ok).
  rewrite <- (for_each_ok (validate_subscriber node_config) subscriber_ok)
    by (intros; apply validate_subscriber_ok).
  rewrite <- validate_roles_ok.
  destruct (Z.ltb_spec (get (nc_qty node_config) 1) 1) as [Hlt|Hge].
  - unfold raise, ok. split; [discriminate | lia].
  - destruct (for_each (validate_publisher node_config)
                       (get (nc_publishers node_config) [])) as [e|[]]; simpl;
      [unfold ok; intuition congruence|].
    destruct (for_each (validate_subscriber node_config)
                       (get (nc_subscribers node_config) [])) as [e|[]]; simpl;
      unfold ok; intuition congruence.
Qed.

Lemma validate_config_ok (config : Config) :
  validate_config config = ok tt <-> config_ok config = true.
Proof.
  unfold validate_config, config_ok.
  apply for_each_ok. intros environment _.
  apply for_each_ok. intros node_config _.
  apply validate_node_ok.
Qed.

Lemma config_ok_nodes (config : Config) :
  config_ok config = true <-> forallb node_ok (all_nodes config) = true.
Proof.
  unfold config_ok, all_nodes.
  induction (environments config) as [|environment envs IH]; simpl; [easy|].
  now rewrite forallb_app, !andb_true_iff, IH.
Qed.

(** Whatever the validator raises is a [ValueError]. *)
Lemma validate_config_value_error (config : Config) (e : Exception) :
  validate_config config = inl e -> exists message, e = ValueError message.
Proof.
  rewrite validate_config_first.
  destruct (violations config) as [|first rest] eqn:Hv; [discriminate|].
  intros [= <-].
  assert (Hin : In first (violations config)) by (rewrite Hv; now left).
  unfold violations in Hin. apply in_flat_map in Hin.
  destruct Hin as [environment [_ Hin]]. apply in_flat_map in Hin.
  destruct Hin as [node_config [_ Hin]].
  assert (Hvalue : forall l, In first l ->
            Forall (fun x => exists message, x = ValueError message) l ->
            exists message, first = ValueError message).
  { intros l Hl Hall. rewrite Forall_forall in Hall. now apply Hall. }
  apply (Hvalue _ Hin).
  unfold node_violations, role_violations, when_. cbv zeta.
  repeat (apply Forall_app; split);
    try (match goal with |- context [if ?b then _ else _] => destruct b end;
         repeat constructor; eexists; reflexivity).
  - apply Forall_flat_map, Forall_forall. intros publisher _.
    unfold publisher_violations, when_.
    apply Forall_app; split;
      match goal with |- context [if ?b then _ else _] => destruct b end;
      repeat constructor; eexists; reflexivity.
  - apply Forall_flat_map, Forall_forall. intros subscriber _.
    unfold subscriber_violations, when_.
    match goal with |- context [if ?b then _ else _] => destruct b end;
      repeat constructor; eexists; reflexivity.
Qed.

Lemma validate_config_rejects (config : Config) :
  forallb node_ok (all_nodes config) = false ->
  exists message, validate_config config = raise (ValueError message).
Proof.
  intros Hbad.
  destruct (validate_config config) as [e|[]] eqn:Hv.
  - destruct (validate_config_value_error config e Hv) as [message ->].
    now exists message.
  - apply validate_config_ok in Hv. apply config_ok_nodes in Hv. congruence.
Qed.

(** X1: the validator returns normally exactly when every node entry of
    every environment has a quantity of at least 1, publishers with a
    quantity of at least 1 and two or more characterization fields,
    subscribers with a quantity of at least 1, not both roles, no
    [subscribers] key on a root node and no [publishers] key on a terminal
    node; otherwise it raises a [ValueError]. *)
Theorem validate_config_accepts_iff (config : Config) :
  (validate_config config = ok tt <-> forallb node_ok (all_nodes config) = true)
  /\ (forallb node_ok (all_nodes config) = false ->
      exists message, validate_config config = raise (ValueError message)).
Proof.
  split; [now rewrite validate_config_ok, config_ok_nodes|].
  apply validate_config_rejects.
Qed.

Lemma validate_config_accepts_iff_witness :
  validate_config sensor_consumer = ok tt
  /\ exists message, validate_config conflict_then_zero = raise (ValueError message).
Proof.
  split.
  - apply (proj1 (validate_config_accepts_iff sensor_consumer)). reflexivity.
  - apply (proj2 (validate_config_accepts_iff conflict_then_zero)). reflexivity.
Defined.

(** ** Missing role keys *)

Lemma get_nodes_node_missing (node_config : NodeConfig) (self : Config2Nodes) :
  has_roles node_config = false ->
  get_nodes_node node_config self
  = (inl (KeyError (if contains (nc_root_node node_config)
                    then "terminal_node" else "root_node")),
     self).
Proof.
  unfold has_roles, get_nodes_node.
  destruct (nc_root_node node_config) as [r|]; [|reflexivity].
  destruct (nc_terminal_node node_config) as [t|]; [discriminate | reflexivity].
Qed.

Lemma forallb_false_split {X : Type} (f : X -> bool) (l : list X) :
  forallb f l = false ->
  exists good bad rest,
    l = (good ++ bad :: rest)%list /\ forallb f good = true /\ f bad = false.
Proof.
  induction l as [|x l IH]; simpl; [discriminate|].
  destruct (f x) eqn:E; simpl; intros H.
  - destruct (IH H) as (good & bad & rest & -> & Hgood & Hbad).
    exists (x :: good), bad, rest. simpl. now rewrite E.
  - now exists [], x, l.
Qed.

(** The run of [get_nodes] up to the first node entry without a role key. *)
Lemma get_nodes_stops (self : Config2Nodes) (good rest : list NodeConfig)
    (bad : NodeConfig) :
  selected_nodes (config self) = (good ++ bad :: rest)%list ->
  forallb has_roles good = true ->
  has_roles bad = false ->
  get_nodes self
  = (inl (KeyError (if contains (nc_root_node bad) then "terminal_node" else "root_node")),
     {| nodes := nodes self ++ flat_map descriptors good; config := config self |}).
Proof.
  intros Hsel Hgood Hbad.
  rewrite get_nodes_selected, Hsel. unfold bind at 1. rewrite for_app.
  unfold bind at 1. rewrite (for_nodes_roles good self Hgood). simpl.
  unfold bind at 1. now rewrite (get_nodes_node_missing bad _ Hbad).
Qed.

Lemma get_nodes_missing_role (self : Config2Nodes) :
  forallb has_roles (selected_nodes (config self)) = false ->
  exists key, fst (get_nodes self) = inl (KeyError key).
Proof.
  intros Hroles.
  destruct (forallb_false_split _ _ Hroles) as (good & bad & rest & Hsel & Hgood & Hbad).
  eexists. now rewrite (get_nodes_stops self good rest bad Hsel Hgood Hbad).
Qed.

(** What a launch list tells about the document it came from. *)
Lemma launched_inversion (document : Config) (launched : list Node) :
  generate_launch_description document = inr launched ->
  validate_config document = ok tt
  /\ forallb has_roles (selected_nodes document) = true
  /\ launched = flat_map descriptors (selected_nodes document).
Proof.
  unfold generate_launch_description, load_config.
  destruct (validate_config document) as [e|[]] eqn:Hv; simpl; [discriminate|].
  intros Hrun.
  destruct (forallb has_roles (selected_nodes document)) eqn:Hroles.
  - rewrite (get_nodes_total (init document) Hroles) in Hrun. simpl in Hrun.
    injection Hrun as <-. now repeat split.
  - destruct (get_nodes_missing_role (init document) Hroles) as [key Hkey].
    rewrite Hkey in Hrun. discriminate.
Qed.





(** ** Invariants of the descriptors *)

Section Keeps.

Context {A B : Type} (P : Node -> Prop).

Lemma keeps_ret (a : A) : keeps P (ret a).
Proof. now intros self H. Qed.

Lemma keeps_throw (e : Exception) : keeps P (@throw A e).
Proof. now intros self H. Qed.

Lemma keeps_index (field : option A) (key : string) : keeps P (index field key).
Proof. destruct field; [apply keeps_ret | apply keeps_throw]. Qed.

Lemma keeps_bind (m : Method A) (k : A -> Method B) :
  keeps P m -> (forall a, keeps P (k a)) -> keeps P (bind m k).
Proof.
  intros Hm Hk self H. unfold bind.
  specialize (Hm self H). destruct (m self) as [[e|a] self1]; simpl in *.
  - exact Hm.
  - now apply Hk.
Qed.

Lemma keeps_append (node : Node) : P node -> keeps P (append node).
Proof.
  intros Hnode self H. unfold append. simpl.
  apply Forall_app. split; [exact H | now constructor].
Qed.

End Keeps.

Lemma keeps_for {A : Type} (P : Node -> Prop) (l : list A) (body : A -> Method unit) :
  (forall x, keeps P (body x)) -> keeps P (for_ l body).
Proof.
  intros Hbody. induction l as [|x l IH]; simpl.
  - apply keeps_ret.
  - apply keeps_bind; [apply Hbody | intros _; exact IH].
Qed.

Lemma keeps_generate_node (P : Node -> Prop) (node_config : NodeConfig)
    (node_name : string) (root_node terminal_node : bool)
    (publish_topics : Dict.dict (Dict.dict Z))
    (subscribe_topics : Dict.dict (Dict.dict string)) :
  (forall instance, P (create_node instance root_node terminal_node
                                   publish_topics subscribe_topics)) ->
  keeps P (generate_node node_config node_name root_node terminal_node
                         publish_topics subscribe_topics).
Proof.
  intros Hcreate. unfold generate_node.
  destruct (nc_qty node_config) as [node_qty|].
  - apply keeps_for. intros num. apply keeps_append, Hcreate.
  - apply keeps_append, Hcreate.
Qed.

Lemma get_nodes_returns_nodes (self : Config2Nodes) (returned : list Node) :
  fst (get_nodes self) = inr returned -> returned = nodes (snd (get_nodes self)).
Proof.
  unfold get_nodes, bind, self_config, self_nodes.
  destruct (for_ (environments (config self)) get_nodes_environment self)
    as [[e|[]] self1]; simpl; [discriminate|].
  now intros [= <-].
Qed.

(** X4: every descriptor [get_nodes] adds to [self.nodes] has package
    [fabric_nodes], executable [dummy_node_exe], output [screen], a namespace
    equal to its name and exactly one parameter dict; this holds of the whole
    list when it held on entry, whether the call returns or raises. *)
Theorem get_nodes_keeps_shape (self : Config2Nodes) :
  Forall shaped (nodes self) ->
  Forall shaped (nodes (snd (get_nodes self)))
  /\ (forall returned, fst (get_nodes self) = inr returned -> Forall shaped returned).
Proof.
  intros Hself.
  assert (Hkeeps : keeps shaped get_nodes).
  { unfold get_nodes.
    apply keeps_bind; [now intros s Hs | intros config].
    apply keeps_bind; [| intros _; now intros s Hs].
    apply keeps_for. intros environment. unfold get_nodes_environment.
    destruct (negb (String.eqb (env_name environment) "env1")); [apply keeps_ret|].
    apply keeps_for. intros node_config. unfold get_nodes_node.
    apply keeps_bind; [apply keeps_index | intros root_node].
    apply keeps_bind; [apply keeps_index | intros terminal_node].
    apply keeps_generate_node. intros instance. now repeat split. }
  split; [now apply Hkeeps|].
  intros returned Hret. rewrite (get_nodes_returns_nodes self returned Hret).
  now apply Hkeeps.
Qed.

Lemma get_nodes_keeps_shape_witness :
  Forall shaped (nodes (snd (get_nodes (init without_roles))))
  /\ Forall shaped (produced (fst (get_nodes (init sensor_consumer)))).
Proof.
  split.
  - apply (proj1 (get_nodes_keeps_shape (init without_roles) (Forall_nil shaped))).
  - apply (proj2 (get_nodes_keeps_shape (init sensor_consumer) (Forall_nil shaped))).
    reflexivity.
Defined.

(** ** What validation guarantees about the output *)

Lemma selected_in_all (config : Config) (node_config : NodeConfig) :
  In node_config (selected_nodes config) -> In node_config (all_nodes config).
Proof.
  unfold selected_nodes, all_nodes. rewrite !in_flat_map.
  intros [environment [Hin Hnode]]. exists environment.
  apply filter_In in Hin. now split.
Qed.

Lemma validated_selected_ok (config : Config) (node_config : NodeConfig) :
  validate_config config = ok tt ->
  In node_config (selected_nodes config) ->
  node_ok node_config = true.
Proof.
  rewrite validate_config_ok, config_ok_nodes, forallb_forall.
  intros Hall Hin. now apply Hall, selected_in_all.
Qed.

Lemma descriptors_roles_respected (node_config : NodeConfig) :
  node_ok node_config = true ->
  Forall roles_respected (descriptors node_config).
Proof.
  unfold node_ok, roles_ok. cbv zeta. rewrite !andb_true_iff, !negb_true_iff.
  intros [_ [[Hboth Hroot] Hterminal]].
  unfold descriptors. apply Forall_map, Forall_forall. intros instance _.
  unfold roles_respected, create_node. simpl.
  constructor; [|constructor]. simpl. split; [exact Hboth|]. split; intros Hrole.
  - rewrite Hrole in Hroot. simpl in Hroot. unfold process_subscribers.
    now destruct (nc_subscribers node_config).
  - rewrite Hrole in Hterminal. simpl in Hterminal. unfold process_publishers.
    now destruct (nc_publishers node_config).
Qed.

(** X5: in the launch list of a validated document no descriptor is both
    root and terminal, a root descriptor has an empty [subscribe_topics] and
    a terminal descriptor has an empty [publish_topics]. *)
Theorem launched_roles_respected (document : Config) (launched : list Node) :
  generate_launch_description document = inr launched ->
  Forall roles_respected launched.
Proof.
  intros Hrun. apply launched_inversion in Hrun.
  destruct Hrun as (Hvalid & _ & ->).
  apply Forall_flat_map, Forall_forall. intros node_config Hin.
  apply descriptors_roles_respected.
  now apply (validated_selected_ok document).
Qed.

Lemma launched_roles_respected_witness :
  Forall roles_respected (produced (generate_launch_description sensor_consumer)).
Proof.
  apply (launched_roles_respected sensor_consumer). reflexivity.
Defined.

Lemma descriptors_length (node_config : NodeConfig) :
  1 <= get (nc_qty node_config) 1 ->
  Z.of_nat (length (descriptors node_config)) = get (nc_qty node_config) 1.
Proof.
  unfold descriptors, instance_names. rewrite length_map.
  destruct (nc_qty node_config) as [node_qty|]; simpl; intros Hq; [|reflexivity].
  rewrite length_map, range_length. lia.
Qed.

(** X6: a validated document is launched with as many descriptors as the
    quantities of the node entries of its [env1] environments add up to, an
    entry without [qty] counting for one. *)
Theorem launched_count (document : Config) (launched : list Node) :
  generate_launch_description document = inr launched ->
  Z.of_nat (length launched)
  = total_quantity (map (fun node_config => get (nc_qty node_config) 1)
                        (selected_nodes document)).
Proof.
  intros Hrun. apply launched_inversion in Hrun.
  destruct Hrun as (Hvalid & _ & ->).
  assert (Hok : forall node_config, In node_config (selected_nodes document) ->
                                    1 <= get (nc_qty node_config) 1).
  { intros node_config Hin.
    pose proof (validated_selected_ok document node_config Hvalid Hin) as Hnode.
    unfold node_ok in Hnode. rewrite !andb_true_iff, Z.leb_le in Hnode. tauto. }
  induction (selected_nodes document) as [|node_config ncs IH]; [reflexivity|].
  simpl. rewrite length_app, Nat2Z.inj_add.
  rewrite descriptors_length by (apply Hok; now left).
  rewrite IH by (intros nc Hnc; apply Hok; now right).
  reflexivity.
Qed.

Lemma launched_count_witness :
  Z.of_nat (length (produced (generate_launch_description sensor_consumer))) = 2.
Proof.
  apply (launched_count sensor_consumer). reflexivity.
Defined.

(** ** Quantities below 1 in the expansion *)

Lemma range_empty (start stop : Z) : stop <= start -> range start stop = [].
Proof.
  intros H. unfold range. now replace (Z.to_nat (stop - start)) with 0%nat by lia.
Qed.

(** X7: on its own [generate_node] accepts a quantity of 0 or less: it
    raises nothing and appends nothing, so the node entry has no descriptor. *)
Theorem generate_node_nonpositive_qty (node_config : NodeConfig) (node_name : string)
    (root_node terminal_node : bool) (publish_topics : Dict.dict (Dict.dict Z))
    (subscribe_topics : Dict.dict (Dict.dict string)) (self : Config2Nodes) (n : Z) :
  nc_qty node_config = Some n ->
  n <= 0 ->
  generate_node node_config node_name root_node terminal_node
                publish_topics subscribe_topics self
  = (inr tt, self).
Proof.
  intros Hq Hn. rewrite generate_node_appends, Hq. unfold instance_names.
  rewrite range_empty by lia. simpl. rewrite app_nil_r. now destruct self.
Qed.

Lemma generate_node_nonpositive_qty_witness :
  generate_node (mkNodeConfig "b" (Some false) (Some false) (Some 0) None None)
                "b" false false [] [] (init conflict_then_zero)
  = (inr tt, init conflict_then_zero).
Proof.
  apply (generate_node_nonpositive_qty
           (mkNodeConfig "b" (Some false) (Some false) (Some 0) None None)
           "b" false false [] [] (init conflict_then_zero) 0);
    [reflexivity | lia].
Defined.

Lemma replicate_topic_nonpositive {V : Type} (topic_name : string) (qty : Z)
    (topic : V) (topics : Dict.dict V) :
  qty <= 0 -> replicate_topic topic_name qty topic topics = topics.
Proof.
  intros Hq. unfold replicate_topic.
  destruct (Z.eqb_spec qty 1) as [->|_]; [lia|]. simpl.
  now rewrite range_empty by lia.
Qed.

(** X8: in the topic loops a publisher or a subscriber with a quantity of 0
    or less writes no topic at all: the map is the one the other entries
    give. *)
Theorem topic_nonpositive_qty_skipped (node_name : string)
    (root terminal : option bool) (qty : option Z)
    (publishers publishers' : list Publisher) (publisher : Publisher)
    (subscribers subscribers' : list Subscriber) (subscriber : Subscriber) :
  get (pub_qty publisher) 1 <= 0 ->
  get (sub_qty subscriber) 1 <= 0 ->
  process_publishers
    (mkNodeConfig node_name root terminal qty
                  (Some (publishers ++ publisher :: publishers')%list)
                  (Some (subscribers ++ subscriber :: subscribers')%list))
  = process_publishers
      (mkNodeConfig node_name root terminal qty
                    (Some (publishers ++ publishers')%list)
                    (Some (subscribers ++ subscribers')%list))
  /\ process_subscribers
       (mkNodeConfig node_name root terminal qty
                     (Some (publishers ++ publisher :: publishers')%list)
                     (Some (subscribers ++ subscriber :: subscribers')%list))
     = process_subscribers
         (mkNodeConfig node_name root terminal qty
                       (Some (publishers ++ publishers')%list)
                       (Some (subscribers ++ subscribers')%list)).
Proof.
  intros Hp Hs. unfold process_publishers, process_subscribers. simpl.
  rewrite !fold_left_app. simpl.
  unfold process_publisher at 2, process_subscriber at 2.
  now rewrite !replicate_topic_nonpositive.
Qed.

Lemma topic_nonpositive_qty_skipped_witness :
  process_publishers
    (mkNodeConfig "rig" None None None
       (Some [ mkPublisher "cam" None (Some 2) (Some 1) None;
               mkPublisher "lidar" (Some 0) (Some 2) (Some 1) None ])
       (Some [ mkSubscriber "cmd" "a" (Some (-3)) ]))
  = [ ("cam", [("msg_size", 1); ("bandwidth", 2)]) ].
Proof.
  exact (eq_trans
           (proj1 (topic_nonpositive_qty_skipped "rig" None None None
                     [ mkPublisher "cam" None (Some 2) (Some 1) None ] []
                     (mkPublisher "lidar" (Some 0) (Some 2) (Some 1) None)
                     [] [] (mkSubscriber "cmd" "a" (Some (-3)))
                     ltac:(simpl; lia) ltac:(simpl; lia)))
           eq_refl).
Defined.

(** ** Decimal suffixes *)

Lemma to_int_proper (z : Z) :
  Z.to_int z <> Decimal.Pos Decimal.Nil /\ Z.to_int z <> Decimal.Neg Decimal.Nil.
Proof.
  split; intros H;
    assert (Hz : z = 0) by (rewrite <- (DecimalZ.of_to z), H; reflexivity);
    subst z; discriminate H.
Qed.

Lemma str_inj (a b : Z) : str a = str b -> a = b.
Proof.
  unfold str. intros H. apply DecimalZ.to_int_inj.
  destruct (to_int_proper a) as [Ha1 Ha2], (to_int_proper b) as [Hb1 Hb2].
  pose proof (NilZero.isi (Z.to_int a) Ha1 Ha2) as Ia.
  pose proof (NilZero.isi (Z.to_int b) Hb1 Hb2) as Ib.
  rewrite H in Ia. congruence.
Qed.

Lemma NoDup_map_inj {X Y : Type} (f : X -> Y) (l : list X) :
  (forall x y, f x = f y -> x = y) -> NoDup l -> NoDup (map f l).
Proof.
  intros Hinj Hl. apply NoDup_map_NoDup_ForallPairs; [|exact Hl].
  intros x y _ _. apply Hinj.
Qed.

Lemma range_NoDup (start stop : Z) : NoDup (range start stop).
Proof.
  unfold range. apply NoDup_map_inj; [intros x y; lia | apply seq_NoDup].
Qed.

Lemma suffixed_inj (base : string) (a b : Z) :
  base ++ "_" ++ str a = base ++ "_" ++ str b -> a = b.
Proof.
  intros H. apply append_inj_l in H. simpl in H. injection H as H.
  now apply str_inj.
Qed.

Lemma replica_names_NoDup (topic_name : string) (qty : Z) :
  NoDup (replica_names topic_name qty).
Proof.
  unfold replica_names. destruct (negb (qty =? 1)).
  - apply NoDup_map_inj; [apply suffixed_inj | apply range_NoDup].
  - constructor; [easy | constructor].
Qed.

Lemma instance_names_NoDup (node_name : string) (qty : option Z) :
  NoDup (instance_names node_name qty).
Proof.
  unfold instance_names. destruct qty as [node_qty|].
  - apply NoDup_map_inj; [apply suffixed_inj | apply range_NoDup].
  - constructor; [easy | constructor].
Qed.

(** ** Keys of the topic maps *)

Lemma set_fresh {V : Type} (k : string) (v : V) (d : Dict.dict V) :
  ~ In k (Dict.keys d) -> Dict.set k v d = (d ++ [(k, v)])%list.
Proof.
  induction d as [|[k0 v0] d IH]; simpl; intros Hfresh; [reflexivity|].
  destruct (String.eqb_spec k0 k) as [->|Hne].
  - exfalso. apply Hfresh. now left.
  - f_equal. apply IH. intros Hin. apply Hfresh. now right.
Qed.

Lemma keys_set_present {V : Type} (k : string) (v : V) (d : Dict.dict V) :
  In k (Dict.keys d) -> Dict.keys (Dict.set k v d) = Dict.keys d.
Proof.
  unfold Dict.keys. induction d as [|[k0 v0] d IH]; simpl; intros Hin; [easy|].
  destruct (String.eqb_spec k0 k) as [->|Hne]; simpl; [reflexivity|].
  f_equal. apply IH. destruct Hin as [Heq|Hin]; [now elim Hne | exact Hin].
Qed.

Lemma existsb_eqb_In (x : string) (l : list string) :
  existsb (String.eqb x) l = true <-> In x l.
Proof.
  rewrite existsb_exists. split.
  - intros [y [Hy Exy]]. apply String.eqb_eq in Exy. now subst.
  - intros Hin. exists x. split; [exact Hin | apply String.eqb_refl].
Qed.

(** Keys come in the order in which they were first assigned. *)
Lemma keys_assign_all {V : Type} (es : list (string * V)) (d : Dict.dict V) :
  Dict.keys (assign_all es d)
  = (Dict.keys d ++ first_occurrences (Dict.keys d) (map fst es))%list.
Proof.
  revert d. induction es as [|[k v] es IH]; intros d.
  - simpl. now rewrite app_nil_r.
  - change (assign_all ((k, v) :: es) d) with (assign_all es (Dict.set k v d)).
    rewrite IH. simpl.
    destruct (existsb (String.eqb k) (Dict.keys d)) eqn:E.
    + apply existsb_eqb_In in E. now rewrite keys_set_present.
    + assert (Hfresh : ~ In k (Dict.keys d)).
      { intros Hin. apply existsb_eqb_In in Hin. congruence. }
      rewrite (set_fresh k v d Hfresh). unfold Dict.keys.
      rewrite map_app. simpl. now rewrite <- app_assoc.
Qed.

Lemma in_keys_assign_all {V : Type} (x : string) (es : list (string * V))
    (d : Dict.dict V) :
  In x (Dict.keys (assign_all es d)) <-> In x (Dict.keys d) \/ In x (map fst es).
Proof.
  revert d. induction es as [|[k v] es IH]; intros d.
  - simpl. tauto.
  - change (assign_all ((k, v) :: es) d) with (assign_all es (Dict.set k v d)).
    rewrite IH, in_keys_set. simpl. intuition.
Qed.

Lemma has_duplicates_false (l : list string) :
  has_duplicates l = false -> NoDup l.
Proof.
  induction l as [|x l IH]; simpl; intros H; [constructor|].
  apply orb_false_iff in H. destruct H as [Hx Hl].
  constructor; [|now apply IH].
  intros Hin. apply existsb_eqb_In in Hin. congruence.
Qed.

Lemma assign_all_fresh {V : Type} (es : list (string * V)) (d : Dict.dict V) :
  NoDup (Dict.keys d ++ map fst es) -> assign_all es d = (d ++ es)%list.
Proof.
  revert d. induction es as [|[k v] es IH]; intros d Hnd.
  - simpl. now rewrite app_nil_r.
  - change (assign_all ((k, v) :: es) d) with (assign_all es (Dict.set k v d)).
    simpl in Hnd. pose proof (NoDup_remove _ _ _ Hnd) as [_ Hfresh].
    rewrite set_fresh by (intros Hin; apply Hfresh, in_or_app; now left).
    rewrite IH.
    + now rewrite <- app_assoc.
    + unfold Dict.keys in *. rewrite map_app. simpl. now rewrite <- app_assoc.
Qed.

Lemma in_publisher_entries (node_config : NodeConfig) (k : string) :
  In k (map fst (publisher_entries node_config))
  <-> exists publisher,
        In publisher (get (nc_publishers node_config) [])
        /\ In k (replica_names (pub_name publisher) (get (pub_qty publisher) 1)).
Proof.
  unfold publisher_entries. rewrite in_map_iff. split.
  - intros [[k' topic] [Hk Hin]]. simpl in Hk. subst k'.
    apply in_flat_map in Hin. destruct Hin as [publisher [Hp Hin]].
    apply in_map_iff in Hin. destruct Hin as [k' [Heq Hk']].
    injection Heq as -> _. now exists publisher.
  - intros [publisher [Hp Hk]]. exists (k, publish_topic_of publisher).
    split; [reflexivity|]. apply in_flat_map. exists publisher.
    split; [exact Hp|]. apply in_map_iff. now exists k.
Qed.

Lemma in_subscriber_entries (node_config : NodeConfig) (k : string) :
  In k (map fst (subscriber_entries node_config))
  <-> exists subscriber,
        In subscriber (get (nc_subscribers node_config) [])
        /\ In k (replica_names (sub_name subscriber) (get (sub_qty subscriber) 1)).
Proof.
  unfold subscriber_entries. rewrite in_map_iff. split.
  - intros [[k' topic] [Hk Hin]]. simpl in Hk. subst k'.
    apply in_flat_map in Hin. destruct Hin as [subscriber [Hs Hin]].
    apply in_map_iff in Hin. destruct Hin as [k' [Heq Hk']].
    injection Heq as -> _. now exists subscriber.
  - intros [subscriber [Hs Hk]].
    exists (k, Dict.set "node" (sub_node subscriber) Dict.empty).
    split; [reflexivity|]. apply in_flat_map. exists subscriber.
    split; [exact Hs|]. apply in_map_iff. now exists k.
Qed.

(** X9: the keys of [publish_topics] are pairwise distinct and are exactly
    the topic names some publisher entry of the node writes; likewise for
    [subscribe_topics] and the subscriber entries. *)
Theorem topic_keys (node_config : NodeConfig) :
  NoDup (Dict.keys (process_publishers node_config))
  /\ (forall k,
        In k (Dict.keys (process_publishers node_config))
        <-> exists publisher,
              In publisher (get (nc_publishers node_config) [])
              /\ In k (replica_names (pub_name publisher) (get (pub_qty publisher) 1)))
  /\ NoDup (Dict.keys (process_subscribers node_config))
  /\ (forall k,
        In k (Dict.keys (process_subscribers node_config))
        <-> exists subscriber,
              In subscriber (get (nc_subscribers node_config) [])
              /\ In k (replica_names (sub_name subscriber) (get (sub_qty subscriber) 1))).
Proof.
  rewrite process_publishers_assign, process_subscribers_assign.
  split; [apply NoDup_keys_assign_all; constructor|].
  split; [intros k; rewrite in_keys_assign_all, <- in_publisher_entries; simpl; tauto|].
  split; [apply NoDup_keys_assign_all; constructor|].
  intros k. rewrite in_keys_assign_all, <- in_subscriber_entries. simpl. tauto.
Qed.

(** X10: the keys of a topic map stand in the order in which the loop first
    wrote them; a later write to a name already there does not move it. *)
Theorem topic_keys_order (node_config : NodeConfig) :
  Dict.keys (process_publishers node_config)
  = first_occurrences [] (map fst (publisher_entries node_config))
  /\ Dict.keys (process_subscribers node_config)
     = first_occurrences [] (map fst (subscriber_entries node_config)).
Proof.
  rewrite process_publishers_assign, process_subscribers_assign.
  now rewrite !keys_assign_all.
Qed.

(** X11: when the topic names written by the publisher loop are pairwise
    distinct, [publish_topics] is exactly the sequence of those writes, one
    entry per replica in publisher-then-replica order; likewise for the
    subscriber loop. *)
Theorem topic_maps_without_clash (node_config : NodeConfig) :
  (has_duplicates (map fst (publisher_entries node_config)) = false ->
   process_publishers node_config = publisher_entries node_config)
  /\ (has_duplicates (map fst (subscriber_entries node_config)) = false ->
      process_subscribers node_config = subscriber_entries node_config).
Proof.
  rewrite process_publishers_assign, process_subscribers_assign.
  split; intros Hnd; apply has_duplicates_false in Hnd;
    now rewrite assign_all_fresh.
Qed.

Lemma topic_maps_without_clash_witness :
  process_publishers
    (mkNodeConfig "rig" None None None
       (Some [ mkPublisher "cam" (Some 2) (Some 2) (Some 1) None;
               mkPublisher "lidar" None None (Some 3) (Some 4) ]) None)
  = [ ("cam_1", [("msg_size", 1); ("bandwidth", 2)]);
      ("cam_2", [("msg_size", 1); ("bandwidth", 2)]);
      ("lidar", [("msg_size", 3); ("msg_frequency", 4)]) ].
Proof.
  exact (eq_trans
           (proj1 (topic_maps_without_clash
                     (mkNodeConfig "rig" None None None
                        (Some [ mkPublisher "cam" (Some 2) (Some 2) (Some 1) None;
                                mkPublisher "lidar" None None (Some 3) (Some 4) ]) None))
                  eq_refl)
           eq_refl).
Defined.

(** ** Replicas of one entry *)

Lemma descriptors_names (node_config : NodeConfig) :
  map name (descriptors node_config)
  = instance_names (nc_name node_config) (nc_qty node_config).
Proof.
  unfold descriptors. rewrite map_map. simpl. apply map_id.
Qed.

(** X12: the replicas of one entry never collide with each other: the
    descriptors of one node entry have pairwise distinct names, the topic
    names of one publisher or subscriber are pairwise distinct, and a node
    with a single publisher of quantity [q], [q] at least 1, gets exactly [q]
    publish topics. *)
Theorem replicas_never_collide (node_config : NodeConfig) :
  NoDup (map name (descriptors node_config))
  /\ (forall topic_name qty, NoDup (replica_names topic_name qty))
  /\ (forall publisher,
        nc_publishers node_config = Some [publisher] ->
        1 <= get (pub_qty publisher) 1 ->
        Z.of_nat (length (process_publishers node_config)) = get (pub_qty publisher) 1).
Proof.
  split; [rewrite descriptors_names; apply instance_names_NoDup|].
  split; [apply replica_names_NoDup|].
  intros publisher Hpubs Hq.
  rewrite process_publishers_assign, assign_all_fresh.
  - unfold publisher_entries. rewrite Hpubs. simpl. rewrite app_nil_r, length_map.
    now apply replica_names_length.
  - unfold publisher_entries. rewrite Hpubs. simpl.
    rewrite app_nil_r, map_map. simpl. rewrite map_id.
    apply replica_names_NoDup.
Qed.

Lemma replicas_never_collide_witness :
  Z.of_nat (length (process_publishers
     (mkNodeConfig "rig" None None None
        (Some [ mkPublisher "cam" (Some 12) (Some 2) (Some 1) None ]) None))) = 12.
Proof.
  apply (proj2 (proj2 (replicas_never_collide
           (mkNodeConfig "rig" None None None
              (Some [ mkPublisher "cam" (Some 12) (Some 2) (Some 1) None ]) None)))
           (mkPublisher "cam" (Some 12) (Some 2) (Some 1) None));
    [reflexivity | simpl; lia].
Defined.

(** ** Where a stored topic comes from *)

Lemma publish_topic_source (node_config : NodeConfig) (k : string)
    (topic : Dict.dict Z) :
  Dict.lookup k (process_publishers node_config) = Some topic ->
  exists publisher,
    In publisher (get (nc_publishers node_config) [])
    /\ In k (replica_names (pub_name publisher) (get (pub_qty publisher) 1))
    /\ topic = publish_topic_of publisher.
Proof.
  rewrite process_publishers_assign, lookup_assign_all.
  destruct (last_binding k (publisher_entries node_config)) as [v|] eqn:Hlast;
    [|discriminate].
  intros [= ->]. apply last_binding_In in Hlast.
  unfold publisher_entries in Hlast. apply in_flat_map in Hlast.
  destruct Hlast as [publisher [Hin Hentry]].
  apply in_map_iff in Hentry. destruct Hentry as [k' [Heq Hk']].
  injection Heq as Hkey Htopic. subst k' topic. now exists publisher.
Qed.

(** X13: every mapping stored in [subscribe_topics] has the single field
    [node], holding the source of a subscriber entry of the node that writes
    that topic name. *)
Theorem subscribe_topic_source (node_config : NodeConfig) (k : string)
    (topic : Dict.dict string) :
  Dict.lookup k (process_subscribers node_config) = Some topic ->
  exists subscriber,
    In subscriber (get (nc_subscribers node_config) [])
    /\ In k (replica_names (sub_name subscriber) (get (sub_qty subscriber) 1))
    /\ topic = [("node", sub_node subscriber)].
Proof.
  rewrite process_subscribers_assign, lookup_assign_all.
  destruct (last_binding k (subscriber_entries node_config)) as [v|] eqn:Hlast;
    [|discriminate].
  intros [= ->]. apply last_binding_In in Hlast.
  unfold subscriber_entries in Hlast. apply in_flat_map in Hlast.
  destruct Hlast as [subscriber [Hin Hentry]].
  apply in_map_iff in Hentry. destruct Hentry as [k' [Heq Hk']].
  injection Heq as Hkey Htopic. subst k' topic. now exists subscriber.
Qed.

Lemma subscribe_topic_source_witness :
  exists subscriber,
    In subscriber (get (nc_subscribers twice_cam) [])
    /\ In "cmd" (replica_names (sub_name subscriber) (get (sub_qty subscriber) 1))
    /\ [("node", "b")] = [("node", sub_node subscriber)].
Proof.
  apply (subscribe_topic_source twice_cam "cmd" [("node", "b")]). reflexivity.
Defined.

Lemma publish_topic_length (publisher : Publisher) :
  Z.of_nat (length (publish_topic_of publisher)) = parameter_count publisher.
Proof.
  unfold publish_topic_of, parameter_count.
  now destruct (pub_msg_size publisher), (pub_bandwidth publisher),
    (pub_msg_frequency publisher).
Qed.

(** X14: in a node entry the validator accepts, every mapping stored in
    [publish_topics] has two or three characterization fields. *)
Theorem validated_publish_topic_fields (node_config : NodeConfig) (k : string)
    (topic : Dict.dict Z) :
  validate_node node_config = ok tt ->
  Dict.lookup k (process_publishers node_config) = Some topic ->
  2 <= Z.of_nat (length topic) <= 3.
Proof.
  intros Hvalid Hk. apply validate_node_ok in Hvalid.
  destruct (publish_topic_source node_config k topic Hk) as (publisher & Hin & _ & ->).
  rewrite publish_topic_length.
  split; [|apply parameter_count_range].
  unfold node_ok in Hvalid. rewrite !andb_true_iff in Hvalid.
  destruct Hvalid as [[[_ Hpubs] _] _].
  rewrite forallb_forall in Hpubs. specialize (Hpubs publisher Hin).
  unfold publisher_ok in Hpubs. rewrite andb_true_iff, !Z.leb_le in Hpubs. tauto.
Qed.

Lemma validated_publish_topic_fields_witness :
  2 <= Z.of_nat (length [("msg_size", 3); ("msg_frequency", 4)]) <= 3.
Proof.
  apply (validated_publish_topic_fields twice_cam "cam"); reflexivity.
Defined.

(** ** Expanding documents put end to end *)

(** X15: expansion follows the order of the environments: for a document
    whose environment list is one list followed by another, a successful
    expansion returns the descriptors of the first part followed by those of
    the second, and an exception raised in the first part is the outcome. *)
Theorem get_nodes_concat (envs envs' : list Environment) :
  (forall first second self1 self2,
      get_nodes (init (mkConfig envs)) = (inr first, self1) ->
      get_nodes (init (mkConfig envs')) = (inr second, self2) ->
      fst (get_nodes (init (mkConfig (envs ++ envs')))) = inr (first ++ second)%list)
  /\ (forall e self1,
        get_nodes (init (mkConfig envs)) = (inl e, self1) ->
        fst (get_nodes (init (mkConfig (envs ++ envs')))) = inl e).
Proof.
  destruct (appends_only_for envs get_nodes_environment
              appends_only_get_nodes_environment) as [outcome1 [delta1 H1]].
  destruct (appends_only_for envs' get_nodes_environment
              appends_only_get_nodes_environment) as [outcome2 [delta2 H2]].
  unfold get_nodes, init, self_config. unfold bind. simpl.
  rewrite for_app. unfold bind. rewrite !H1.
  split.
  - intros first second self1 self2.
    destruct outcome1 as [e1|[]]; [discriminate|]. rewrite !H2.
    destruct outcome2 as [e2|[]]; [discriminate|].
    unfold self_nodes. simpl. intros Hfirst Hsecond.
    injection Hfirst as <- _. injection Hsecond as <- _. reflexivity.
  - intros e self1. destruct outcome1 as [e1|[]]; [|discriminate].
    intros Hfirst. injection Hfirst as <- _. reflexivity.
Qed.

Lemma get_nodes_concat_witness :
  map name (produced (fst (get_nodes (init
     (mkConfig (environments two_env1 ++ environments sensor_consumer))))))
  = ["n"; "m"; "sensor_1"; "consumer_1"].
Proof.
  rewrite (proj1 (get_nodes_concat (environments two_env1) (environments sensor_consumer))
             (produced (fst (get_nodes (init two_env1))))
             (produced (fst (get_nodes (init sensor_consumer))))
             (snd (get_nodes (init two_env1)))
             (snd (get_nodes (init sensor_consumer)))
             eq_refl eq_refl).
  reflexivity.
Defined.

(** ** Validation reaches further than expansion *)

(** X16: the validator walks every environment, also those [get_nodes]
    skips: a node entry it rejects, in an environment of any name, makes the
    pipeline raise a [ValueError] and hand over no descriptor. *)
Theorem rejected_in_any_environment (document : Config) (environment : Environment)
    (node_config : NodeConfig) :
  In environment (environments document) ->
  In node_config (env_nodes environment) ->
  validate_node node_config <> ok tt ->
  (exists message, generate_launch_description document = inl (ValueError message))
  /\ produced (generate_launch_description document) = [].
Proof.
  intros He Hn Hbad.
  assert (Hall : forallb node_ok (all_nodes document) = false).
  { destruct (forallb node_ok (all_nodes document)) eqn:Hall; [|reflexivity].
    exfalso. apply Hbad. apply validate_node_ok.
    rewrite forallb_forall in Hall. apply Hall.
    unfold all_nodes. apply in_flat_map. now exists environment. }
  destruct (validate_config_rejects document Hall) as [message Hv].
  destruct (load_config_error document _ Hv) as [_ Hrun].
  split; [now exists message | now rewrite Hrun].
Qed.

Lemma rejected_in_any_environment_witness :
  exists message,
    generate_launch_description
      (mkConfig [ mkEnvironment "env1" [];
                  mkEnvironment "env2"
                    [ mkNodeConfig "b" None None (Some 0) None None ] ])
    = inl (ValueError message).
Proof.
  apply (rejected_in_any_environment
           (mkConfig [ mkEnvironment "env1" [];
                       mkEnvironment "env2"
                         [ mkNodeConfig "b" None None (Some 0) None None ] ])
           (mkEnvironment "env2" [ mkNodeConfig "b" None None (Some 0) None None ])
           (mkNodeConfig "b" None None (Some 0) None None)).
  - simpl. right. left. reflexivity.
  - simpl. left. reflexivity.
  - discriminate.
Defined.

(** ** What a call does to the converter *)

(** X17: whether it returns or raises, [get_nodes] leaves [self.config] as
    it was and only appends to [self.nodes]; what it appends depends on the
    document alone, not on what the list held. *)
Theorem get_nodes_only_appends (document : Config) :
  exists delta, forall before,
    nodes (snd (get_nodes {| nodes := before; config := document |}))
    = (before ++ delta)%list
    /\ config (snd (get_nodes {| nodes := before; config := document |})) = document.
Proof.
  destruct (get_nodes_frame document) as [outcome [delta Hframe]].
  exists delta. intros before. now rewrite Hframe.
Qed.
